(** * The computer-use agent loop of the operator service

    A shallow embedding of [operatorService.ts]: the Playwright browser
    session, the action dispatcher [handleModelAction] and the agent loop
    [runComputerUseAgent], together with the properties the specification
    states about them.

    The service works on untyped JSON ([any] in the source), so values are
    modelled by a JSON value type and every property read, default and
    conversion the source performs is written out.  The browser and the model
    endpoint are the environment: a [host] answers each external call and may
    reject any of them.  A computation returns its outcome together with the
    chronological list of the events it produced.

    The development also covers the test script that drives the agent, the
    history section of the execution prompt ([prompts.ts]) and the cadence
    and cron tables of the scheduler ([qstashService.ts]). *)

From Stdlib Require Import List String Ascii ZArith Bool Lia.
From Stdlib Require Import DecimalString.
Import ListNotations.
Local Open Scope string_scope.
Local Open Scope Z_scope.
Set Warnings "-register-all".

(* ================================================================== *)
(** ** JavaScript values *)

(** JSON data as the service sees it.  [JNum n] stands for the integral
    number [n] (pixel coordinates, milliseconds, viewport sizes); a string is
    Unicode text held in UTF-8; an object keeps its properties as an
    association list. *)
Inductive jsval : Type :=
| JUndefined
| JNull
| JBool (b : bool)
| JNum (n : Z)
| JStr (s : string)
| JArr (items : list jsval)
| JObj (fields : list (string * jsval)).

Module Js.

(** [v === undefined || v === null] *)
Definition nullish (v : jsval) : bool :=
  match v with JUndefined | JNull => true | _ => false end.

(** [a ?? b] *)
Definition coalesce (a b : jsval) : jsval := if nullish a then b else a.

(** A destructuring default, [{ k = d } = o]: only [undefined] is replaced. *)
Definition default (v d : jsval) : jsval :=
  match v with JUndefined => d | _ => v end.

(** [v === "s"] for a string literal. *)
Definition is_str (v : jsval) (s : string) : bool :=
  match v with JStr t => String.eqb t s | _ => false end.

(** [typeof v === "string"] *)
Definition is_string (v : jsval) : bool :=
  match v with JStr _ => true | _ => false end.

(** ToBoolean. *)
Definition truthy (v : jsval) : bool :=
  match v with
  | JUndefined | JNull => false
  | JBool b => b
  | JNum n => negb (n =? 0)
  | JStr s => negb (String.eqb s EmptyString)
  | JArr _ | JObj _ => true
  end.

Fixpoint lookup (k : string) (fs : list (string * jsval)) : jsval :=
  match fs with
  | [] => JUndefined
  | (k', v) :: rest => if String.eqb k' k then v else lookup k rest
  end.

Definition has_key (k : string) (fs : list (string * jsval)) : bool :=
  existsb (fun kv => String.eqb (fst kv) k) fs.

(** [v.k] on a value that is not nullish.  The property names this
    service reads ([type], [output], [id], [text], [summary], [action],
    [call_id], [pending_safety_checks], [x], [y], [button], [scroll_x],
    [scroll_y], [duration], [url], [wait_until], and [keys], which is read
    off objects only) are own properties of objects and absent from
    every other JSON value. *)
Definition prop (v : jsval) (k : string) : jsval :=
  match v with JObj fs => lookup k fs | _ => JUndefined end.

(** [v.k] in general: reading a property of [undefined] or [null] throws a
    TypeError, rendered as [None]. *)
Definition member (v : jsval) (k : string) : option jsval :=
  if nullish v then None else Some (prop v k).

(** In UTF-8 a byte of the form [10xxxxxx] continues the character begun
    before it. *)
Definition continuation (c : ascii) : bool :=
  match c with
  | Ascii _ _ _ _ _ _ b6 b7 => b7 && negb b6
  end.

Definition continues (s : string) : bool :=
  match s with
  | String d _ => continuation d
  | EmptyString => false
  end.

(** The characters (code points) of a string, in order: every byte that
    is not a continuation starts a new one. *)
Fixpoint code_points (s : string) : list string :=
  match s with
  | EmptyString => []
  | String c rest =>
      let tail := code_points rest in
      if continues rest then
        match tail with
        | t :: more => String c t :: more
        | [] => [String c EmptyString]
        end
      else String c EmptyString :: tail
  end.

Definition chars (s : string) : list jsval := map JStr (code_points s).

(** [v[0]] on a value that is not nullish.  On a string this is its first
    character (for a character outside the Basic Multilingual Plane
    JavaScript yields the first half of its surrogate pair; the service
    only tests the element for [null] and reads a property off it, which no
    string has). *)
Definition index0 (v : jsval) : jsval :=
  match v with
  | JArr items => nth 0 items JUndefined
  | JStr s => nth 0 (chars s) JUndefined
  | JObj fs => lookup "0" fs
  | _ => JUndefined
  end.

(** [v?.[0]?.text] *)
Definition first_text (v : jsval) : jsval :=
  if nullish v then JUndefined
  else if nullish (index0 v) then JUndefined
  else prop (index0 v) "text".

(** The line feed, ["\n"]. *)
Definition newline : string := String "010" EmptyString.

(** An integer in decimal digits, which is how JavaScript prints an
    integral number of magnitude below 10^21 (step counters, list
    positions, lengths). *)
Definition decimal (n : Z) : string := NilZero.string_of_int (Z.to_int n).

(** ToString, as template literals and [Array.prototype.join] apply it.
    An array prints its elements separated by commas, nullish elements as
    the empty string.  A plain object prints as [[object Object]] through
    the inherited [toString]; when JSON data shadows [toString] with an own
    property, which is never callable, the conversion throws a TypeError
    ([None]). *)
Fixpoint to_string (v : jsval) : option string :=
  match v with
  | JUndefined => Some "undefined"
  | JNull => Some "null"
  | JBool true => Some "true"
  | JBool false => Some "false"
  | JNum n => Some (decimal n)
  | JStr s => Some s
  | JArr items =>
      (fix commas (l : list jsval) : option string :=
         match l with
         | [] => Some EmptyString
         | x :: rest =>
             match (if nullish x then Some EmptyString else to_string x) with
             | None => None
             | Some s =>
                 match rest with
                 | [] => Some s
                 | _ :: _ =>
                     match commas rest with
                     | None => None
                     | Some t => Some (s ++ "," ++ t)
                     end
                 end
             end
         end) items
  | JObj fs => if has_key "toString" fs then None else Some "[object Object]"
  end.

(** [l.join(sep)] on an array [l]. *)
Fixpoint join (sep : string) (l : list jsval) : option string :=
  match l with
  | [] => Some EmptyString
  | x :: rest =>
      match (if nullish x then Some EmptyString else to_string x) with
      | None => None
      | Some s =>
          match rest with
          | [] => Some s
          | _ :: _ =>
              match join sep rest with
              | None => None
              | Some t => Some (s ++ sep ++ t)
              end
          end
      end
  end.

(** The elements a [for ... of] loop visits: the items of an array, the
    characters (code points) of a string; every other JSON value is not
    iterable and throws a TypeError. *)
Definition iterate (v : jsval) : option (list jsval) :=
  match v with
  | JArr items => Some items
  | JStr s => Some (chars s)
  | _ => None
  end.

End Js.

(* ================================================================== *)
(** ** The environment: Playwright and the model endpoint *)

(** Every call that leaves the process.  Browser and page handles are the
    values the host returned for them. *)
Inductive call : Type :=
| ChromiumLaunch (options : jsval)
| BrowserNewPage (browser : jsval)
| PageSetViewportSize (page : jsval) (width height : Z)
| MouseClick (page x y button : jsval)
| MouseDblclick (page x y button : jsval)
| MouseMove (page x y : jsval)
| EvaluateScrollBy (page sx sy : jsval)
| KeyboardType (page text : jsval)
| KeyboardPress (page key : jsval)
| PageWaitForTimeout (page duration : jsval)
| PageGoto (page url waitUntil : jsval)
| PageScreenshot (page : jsval) (fullPage : bool)
| BrowserClose (browser : jsval)
| ResponsesCreate (payload : jsval).

(** An awaited promise either fulfils with a value or rejects with a
    reason. *)
Inductive reply : Type :=
| Fulfil (v : jsval)
| Reject (reason : jsval).

Inductive level : Type := LogLevel | WarnLevel | ErrorLevel.

Inductive event : Type :=
| EvCall (c : call) (r : reply)
| EvConsole (lvl : level) (args : list jsval).

(** The host decides, from its own state, how each call ends.
    [JSON_stringify] and [base64] are the runtime's serialisers
    ([JSON.stringify] on an object and [Buffer.toString("base64")]). *)
Record host : Type := Host {
  world : Type;
  exec : call -> world -> reply * world;
  JSON_stringify : jsval -> string;
  base64 : jsval -> string
}.

(** A host that plays a fixed list of model replies, one per request, and
    lets the browser fail exactly on the calls [fails] selects. *)
Definition scripted_exec (fails : call -> bool) (c : call)
                         (turns : list reply) : reply * list reply :=
  if fails c then (Reject (JStr "host failure"), turns)
  else match c with
       | ResponsesCreate _ =>
           match turns with
           | r :: rest => (r, rest)
           | [] => (Reject (JStr "connection refused"), [])
           end
       | ChromiumLaunch _ => (Fulfil (JStr "browser#1"), turns)
       | BrowserNewPage _ => (Fulfil (JStr "page#1"), turns)
       | PageScreenshot _ _ => (Fulfil (JStr "iVBORw0KGgo="), turns)
       | _ => (Fulfil JUndefined, turns)
       end.

Definition scripted (fails : call -> bool) : host :=
  {| world := list reply;
     exec := scripted_exec fails;
     JSON_stringify := fun _ => "{}";
     base64 := fun buffer =>
                 match buffer with JStr s => s | _ => EmptyString end |}.

(** How a computation ends: normally, by a thrown value, or not yet (the
    agent loop has no step ceiling; [Pending] is a run observed while the
    loop is still going). *)
Inductive outcome (A : Type) : Type :=
| Returned (a : A)
| Thrown (e : jsval)
| Pending.
Arguments Returned {A} a.
Arguments Thrown {A} e.
Arguments Pending {A}.

Definition type_error : jsval := JObj [("name", JStr "TypeError")].

Section Service.

Variable H : host.

Record run (A : Type) : Type := Run {
  outcome_of : outcome A;
  world_after : world H;
  events : list event
}.
Arguments Run {A} _ _ _.
Arguments outcome_of {A} _.
Arguments world_after {A} _.
Arguments events {A} _.

Definition M (A : Type) : Type := world H -> run A.

Definition ret {A} (a : A) : M A := fun w => Run (Returned a) w [].

Definition throw {A} (e : jsval) : M A := fun w => Run (Thrown e) w [].

Definition pending {A} : M A := fun w => Run Pending w [].

(** A run with some earlier events in front of its own. *)
Definition prefixed {A} (t : list event) (r : run A) : run A :=
  match r with
  | Run o w t' => Run o w (t ++ t')
  end.

Definition bind {A B} (m : M A) (f : A -> M B) : M B :=
  fun w =>
    match m w with
    | Run (Returned a) w1 t1 => prefixed t1 (f a w1)
    | Run (Thrown e) w1 t1 => Run (Thrown e) w1 t1
    | Run Pending w1 t1 => Run Pending w1 t1
    end.

Notation "x <- m ;; k" := (bind m (fun x => k))
  (at level 61, m at next level, right associativity).
Notation "m ;; k" := (bind m (fun _ => k))
  (at level 61, right associativity).

(** [await c]: the host answers; a rejection is thrown. *)
Definition await (c : call) : M jsval :=
  fun w =>
    let (r, w') := exec H c w in
    Run (match r with Fulfil v => Returned v | Reject e => Thrown e end)
        w' [EvCall c r].

Definition console (lvl : level) (args : list jsval) : M unit :=
  fun w => Run (Returned tt) w [EvConsole lvl args].

(** A JavaScript operation that throws a TypeError where the pure model
    says [None]. *)
Definition lift {A} (o : option A) : M A :=
  match o with Some a => ret a | None => throw type_error end.

(** [try { body } catch (err) { handler }] *)
Definition try_catch {A} (body : M A) (handler : jsval -> M A) : M A :=
  fun w =>
    match body w with
    | Run (Thrown e) w1 t1 => prefixed t1 (handler e w1)
    | r => r
    end.

(** [try { body } finally { cleanup }]: the cleanup runs when the body
    has returned or thrown, and a cleanup that throws replaces the body's
    outcome. *)
Definition try_finally {A} (body : M A) (cleanup : M unit) : M A :=
  fun w =>
    match body w with
    | Run Pending w1 t1 => Run Pending w1 t1
    | Run o w1 t1 =>
        match cleanup w1 with
        | Run (Returned _) w2 t2 => Run o w2 (t1 ++ t2)
        | Run (Thrown e) w2 t2 => Run (Thrown e) w2 (t1 ++ t2)
        | Run Pending w2 t2 => Run Pending w2 (t1 ++ t2)
        end
    end.

(* ---------------------------------------------------------------- *)
(** ** operatorService.ts *)

(** [log(...args)] is [console.log("[LLMService]", ...args)]. *)
Definition log (args : list jsval) : M unit :=
  console LogLevel (JStr "[LLMService]" :: args).

Definition launch_options : jsval :=
  JObj [("headless", JBool false);
        ("chromiumSandbox", JBool true);
        ("env", JObj []);
        ("args", JArr [JStr "--disable-extensions";
                       JStr "--disable-file-system"])].

(** [launchSandboxedBrowser] (lines 20-35): launch, open one page, fix its
    viewport. *)
Definition launchSandboxedBrowser : M (jsval * jsval) :=
  browser <- await (ChromiumLaunch launch_options) ;;
  page <- await (BrowserNewPage browser) ;;
  await (PageSetViewportSize page 1024 768) ;;
  log [JStr "Launched sandboxed browser"] ;;
  ret (browser, page).

(** The arm of [switch (action.type)] a value selects; the three labels
    [open_url], [goto] and [navigate] head one block. *)
Inductive arm : Type :=
| ArmClick | ArmDoubleClick | ArmScroll | ArmType | ArmKeypress | ArmWait
| ArmNavigate | ArmScreenshot | ArmDefault.

Definition switch_arm (ty : jsval) : arm :=
  if Js.is_str ty "click" then ArmClick
  else if Js.is_str ty "double_click" then ArmDoubleClick
  else if Js.is_str ty "scroll" then ArmScroll
  else if Js.is_str ty "type" then ArmType
  else if Js.is_str ty "keypress" then ArmKeypress
  else if Js.is_str ty "wait" then ArmWait
  else if Js.is_str ty "open_url" then ArmNavigate
  else if Js.is_str ty "goto" then ArmNavigate
  else if Js.is_str ty "navigate" then ArmNavigate
  else if Js.is_str ty "screenshot" then ArmScreenshot
  else ArmDefault.

(** [for (const key of keys) await page.keyboard.press(key)] *)
Fixpoint press_each (page : jsval) (keys : list jsval) : M unit :=
  match keys with
  | [] => ret tt
  | key :: rest => await (KeyboardPress page key) ;; press_each page rest
  end.

(** [handleModelAction] (lines 41-112).  Inside an arm [action.type] has
    matched a string, so [action] is an object and its fields are read with
    [Js.prop]. *)
Definition handleModelAction (page action : jsval) : M unit :=
  ty <- lift (Js.member action "type") ;;
  log [JStr "handleModelAction invoked"; ty; action] ;;
  match switch_arm ty with
  | ArmClick =>
      let x := Js.prop action "x" in
      let y := Js.prop action "y" in
      let button := Js.default (Js.prop action "button") (JStr "left") in
      log [JStr "click"; JObj [("x", x); ("y", y); ("button", button)]] ;;
      await (MouseClick page x y button) ;;
      ret tt
  | ArmDoubleClick =>
      let x := Js.prop action "x" in
      let y := Js.prop action "y" in
      let button := Js.default (Js.prop action "button") (JStr "left") in
      log [JStr "double_click";
           JObj [("x", x); ("y", y); ("button", button)]] ;;
      await (MouseDblclick page x y button) ;;
      ret tt
  | ArmScroll =>
      let x := Js.prop action "x" in
      let y := Js.prop action "y" in
      let scroll_x := Js.prop action "scroll_x" in
      let scroll_y := Js.prop action "scroll_y" in
      log [JStr "scroll";
           JObj [("x", x); ("y", y);
                 ("scroll_x", scroll_x); ("scroll_y", scroll_y)]] ;;
      await (MouseMove page x y) ;;
      await (EvaluateScrollBy page scroll_x scroll_y) ;;
      ret tt
  | ArmType =>
      log [JStr "type"; JObj [("text", Js.prop action "text")]] ;;
      await (KeyboardType page (Js.prop action "text")) ;;
      ret tt
  | ArmKeypress =>
      log [JStr "keypress"; JObj [("keys", Js.prop action "keys")]] ;;
      keys <- lift (Js.iterate (Js.prop action "keys")) ;;
      press_each page keys
  | ArmWait =>
      log [JStr "wait";
           JObj [("duration",
                  Js.coalesce (Js.prop action "duration") (JNum 1000))]] ;;
      await (PageWaitForTimeout page
               (Js.coalesce (Js.prop action "duration") (JNum 1000))) ;;
      ret tt
  | ArmNavigate =>
      let url := Js.prop action "url" in
      let wait_until :=
        Js.default (Js.prop action "wait_until") (JStr "load") in
      log [JStr "navigate";
           JObj [("url", url); ("wait_until", wait_until)]] ;;
      if negb (Js.truthy url) || negb (Js.is_string url) then
        console WarnLevel
          [JStr ("Missing or invalid URL in navigate action: "
                 ++ JSON_stringify H action)]
      else
        try_catch
          (await (PageGoto page url wait_until) ;; ret tt)
          (fun err =>
             shown <- lift (Js.to_string url) ;;
             console ErrorLevel
               [JStr ("Failed to navigate to " ++ shown ++ ":"); err])
  | ArmScreenshot => ret tt
  | ArmDefault =>
      shown <- lift (Js.to_string ty) ;;
      console WarnLevel [JStr ("Unrecognized action type: " ++ shown)]
  end.

(** [captureScreenshot] (lines 117-121): the full-page image, base-64
    encoded. *)
Definition captureScreenshot (page : jsval) : M string :=
  log [JStr "Capturing screenshot"] ;;
  buffer <- await (PageScreenshot page true) ;;
  ret (base64 H buffer).

Definition computer_tool : jsval :=
  JObj [("type", JStr "computer_use_preview");
        ("display_width", JNum 1024);
        ("display_height", JNum 768);
        ("environment", JStr "browser")].

(** The payload of the first request. *)
Definition first_request (prompt : string) : jsval :=
  JObj [("model", JStr "computer-use-preview");
        ("tools", JArr [computer_tool]);
        ("input",
         JArr [JObj [("role", JStr "user");
                     ("content",
                      JArr [JObj [("type", JStr "input_text");
                                  ("text", JStr prompt)]])]]);
        ("reasoning", JObj [("summary", JStr "concise")]);
        ("truncation", JStr "auto")].

(** The payload that sends a screenshot back. *)
Definition next_request (previous_response_id call_id
                           acknowledgedSafety : jsval)
                        (screenshotBase64 : string) : jsval :=
  JObj [("model", JStr "computer-use-preview");
        ("previous_response_id", previous_response_id);
        ("tools", JArr [computer_tool]);
        ("input",
         JArr [JObj [("call_id", call_id);
                     ("type", JStr "computer_call_output");
                     ("acknowledged_safety_checks", acknowledgedSafety);
                     ("output",
                      JObj [("type", JStr "input_image");
                            ("image_url",
                             JStr ("data:image/png;base64,"
                                   ++ screenshotBase64))])]]);
        ("truncation", JStr "auto")].

(** The receiver of [output?.find(...)] and [output?.filter(...)]:
    [Some None] when the chain short-circuits on a nullish [output],
    [Some (Some items)] on an array, and [None] (a TypeError: the method is
    missing) on every other value. *)
Definition optional_array (output : jsval) : option (option (list jsval)) :=
  if Js.nullish output then Some None
  else match output with
       | JArr items => Some (Some items)
       | _ => None
       end.

(** [items.find(item => item.type === "computer_call")] *)
Fixpoint find_computer_call (items : list jsval) : option jsval :=
  match items with
  | [] => Some JUndefined
  | item :: rest =>
      match Js.member item "type" with
      | None => None
      | Some ty =>
          if Js.is_str ty "computer_call" then Some item
          else find_computer_call rest
      end
  end.

(** [response.output?.find(...)] *)
Definition output_find (response : jsval) : option jsval :=
  match Js.member response "output" with
  | None => None
  | Some output =>
      match optional_array output with
      | None => None
      | Some None => Some JUndefined
      | Some (Some items) => find_computer_call items
      end
  end.

(** [items.filter(item => item.type === "text" || item.type === "reasoning")] *)
Fixpoint filter_text (items : list jsval) : option (list jsval) :=
  match items with
  | [] => Some []
  | item :: rest =>
      match Js.member item "type" with
      | None => None
      | Some ty =>
          match filter_text rest with
          | None => None
          | Some kept =>
              if Js.is_str ty "text" || Js.is_str ty "reasoning"
              then Some (item :: kept) else Some kept
          end
      end
  end.

(** [item.text ?? item.summary?.[0]?.text ?? EMPTY], where [EMPTY] is the
    empty string literal. *)
Definition text_of (item : jsval) : jsval :=
  Js.coalesce
    (Js.coalesce (Js.prop item "text")
                 (Js.first_text (Js.prop item "summary")))
    (JStr EmptyString).

(** The value the loop returns once the model has stopped acting: the
    text parts joined by line feeds, and the empty string when [output] is
    absent (lines 168-173). *)
Definition final_text (response : jsval) : option string :=
  match Js.member response "output" with
  | None => None
  | Some output =>
      match optional_array output with
      | None => None
      | Some None => Some EmptyString
      | Some (Some items) =>
          match filter_text items with
          | None => None
          | Some kept => Js.join Js.newline (map text_of kept)
          end
      end
  end.

(** What one pass through the body of [while (true)] decides. *)
Inductive verdict : Type :=
| Done (text : string)
| Continue (response : jsval).

(** The body of the main loop (lines 158-215); [step] is the counter after
    [step += 1]. *)
Definition loop_iteration (page : jsval) (step : nat) (response : jsval)
  : M verdict :=
  console LogLevel [JStr "response"; response] ;;
  computerCall <- lift (output_find response) ;;
  if negb (Js.truthy computerCall) then
    log [JStr "No more computer calls, agent finished after";
         JNum (Z.of_nat step); JStr "steps"] ;;
    text <- lift (final_text response) ;;
    ret (Done text)
  else
    let action := Js.prop computerCall "action" in
    let call_id := Js.prop computerCall "call_id" in
    ty <- lift (Js.member action "type") ;;
    log [JStr ("Step " ++ Js.decimal (Z.of_nat step)
               ++ ": executing action");
         ty; JStr "call_id"; call_id] ;;
    handleModelAction page action ;;
    await (PageWaitForTimeout page (JNum 750)) ;;
    screenshotBase64 <- captureScreenshot page ;;
    log [JStr "Screenshot captured, sending back to model"] ;;
    let acknowledgedSafety :=
      Js.coalesce (Js.prop computerCall "pending_safety_checks")
                  (JArr []) in
    response' <- await (ResponsesCreate
                          (next_request (Js.prop response "id") call_id
                             acknowledgedSafety screenshotBase64)) ;;
    ret (Continue response').

(** [while (true) { ... }], observed for at most [fuel] passes. *)
Fixpoint agent_loop (fuel : nat) (page : jsval) (step : nat)
                    (response : jsval) : M string :=
  match fuel with
  | O => pending
  | S fuel' =>
      v <- loop_iteration page (S step) response ;;
      match v with
      | Done text => ret text
      | Continue response' => agent_loop fuel' page (S step) response'
      end
  end.

(** [runComputerUseAgent] (lines 129-220).  The session is opened before
    the [try] block; the [finally] clause closes the browser. *)
Definition runComputerUseAgent (fuel : nat) (prompt : string) : M string :=
  log [JStr "runComputerUseAgent started"; JStr prompt] ;;
  session <- launchSandboxedBrowser ;;
  let (browser, page) := session in
  try_finally
    (response <- await (ResponsesCreate (first_request prompt)) ;;
     agent_loop fuel page 0 response)
    (await (BrowserClose browser) ;; ret tt).

(** The rest of the loop body once the action has been dispatched (the
    settle delay, the screenshot and the follow-up request), named so that
    statements about an iteration can refer to it. *)
Definition observe_and_report (page response computerCall : jsval)
  : M verdict :=
  await (PageWaitForTimeout page (JNum 750)) ;;
  screenshotBase64 <- captureScreenshot page ;;
  log [JStr "Screenshot captured, sending back to model"] ;;
  response' <- await (ResponsesCreate
                        (next_request (Js.prop response "id")
                           (Js.prop computerCall "call_id")
                           (Js.coalesce
                              (Js.prop computerCall "pending_safety_checks")
                              (JArr []))
                           screenshotBase64)) ;;
  ret (Continue response').

(** The prompt the test script sends. *)
Definition main_prompt : string :=
  "Open gametime and check prices for the soonest dv4d concert in sf".

(** [main] of the test script that drives the agent.  The script's only
    lasting effect besides the console is [process.exitCode]; the value it
    leaves there is what the model returns ([None] when it is not
    assigned). *)
Definition main (fuel : nat) : M (option Z) :=
  try_catch
    (console LogLevel [JStr "Sending prompt to OpenAI agent..."] ;;
     result <- runComputerUseAgent fuel main_prompt ;;
     console LogLevel [JStr ("Agent result:" ++ Js.newline); JStr result] ;;
     ret None)
    (fun err =>
       console ErrorLevel [JStr "Error running agent:"; err] ;;
       ret (Some 1)).

End Service.

Arguments Run {H A} _ _ _.
Arguments outcome_of {H A} _.
Arguments world_after {H A} _.
Arguments events {H A} _.

(* ================================================================== *)
(** ** Observations on a run *)

(** The external calls of a trace, in order, with the host's answers. *)
Fixpoint interactions (t : list event) : list (call * reply) :=
  match t with
  | [] => []
  | EvCall c r :: rest => (c, r) :: interactions rest
  | EvConsole _ _ :: rest => interactions rest
  end.

Definition calls_of (t : list event) : list call := map fst (interactions t).

(** Two runs that the environment cannot tell apart: the same calls with the
    same answers, the same final host state and the same outcome; only the
    console output may differ. *)
Definition same_interaction {H A} (r1 r2 : run H A) : Prop :=
  outcome_of r1 = outcome_of r2 /\
  world_after r1 = world_after r2 /\
  interactions (events r1) = interactions (events r2).

(** The calls [handleModelAction] can make. *)
Definition is_dispatch_call (c : call) : bool :=
  match c with
  | MouseClick _ _ _ _ | MouseDblclick _ _ _ _ | MouseMove _ _ _
  | EvaluateScrollBy _ _ _ | KeyboardType _ _ | KeyboardPress _ _
  | PageWaitForTimeout _ _ | PageGoto _ _ _ => true
  | _ => false
  end.

Definition is_screenshot (c : call) : bool :=
  match c with PageScreenshot _ _ => true | _ => false end.

Definition is_close (c : call) : bool :=
  match c with BrowserClose _ => true | _ => false end.

(** [!url || typeof url !== "string"] is false: a non-empty string. *)
Definition valid_url (url : jsval) : bool :=
  Js.truthy url && Js.is_string url.

(** The action kinds the dispatcher has a [case] label for. *)
Definition vocabulary : list string :=
  ["click"; "double_click"; "scroll"; "type"; "keypress"; "wait";
   "open_url"; "goto"; "navigate"; "screenshot"].

(** The three labels of the navigation block. *)
Definition navigation_kinds : list string := ["open_url"; "goto"; "navigate"].

(* ================================================================== *)
(** ** The Browser Session of the specification

    The specification describes a layer of typed primitives between the
    dispatcher and the page; the source calls Playwright directly.  The
    definitions below follow the specification's wording, to be compared
    with the calls [handleModelAction] makes. *)

Inductive button : Type := LeftButton | MiddleButton | RightButton.

Definition button_name (b : button) : string :=
  match b with
  | LeftButton => "left"
  | MiddleButton => "middle"
  | RightButton => "right"
  end.

Inductive wait_policy : Type :=
| UntilLoad
| UntilDomContentLoaded
| UntilNetworkIdle.

Definition policy_name (p : wait_policy) : string :=
  match p with
  | UntilLoad => "load"
  | UntilDomContentLoaded => "domcontentloaded"
  | UntilNetworkIdle => "networkidle"
  end.

(** One invocation of a Browser Session primitive. *)
Inductive primitive : Type :=
| Click (x y : Z) (b : button)
| DoubleClick (x y : Z) (b : button)
| Scroll (x y dx dy : Z)
| TypeText (text : string)
| PressKeys (keys : list string)
| Wait (durationMs : Z)
| Navigate (url : string) (policy : wait_policy).

(** The button parameter of a pointer action: one of the three names, left
    when absent. *)
Definition button_of (v : jsval) : option button :=
  match v with
  | JUndefined => Some LeftButton
  | JStr s =>
      if String.eqb s "left" then Some LeftButton
      else if String.eqb s "middle" then Some MiddleButton
      else if String.eqb s "right" then Some RightButton
      else None
  | _ => None
  end.

(** The wait policy of a navigation: one of the three names, load when
    absent. *)
Definition policy_of (v : jsval) : option wait_policy :=
  match v with
  | JUndefined => Some UntilLoad
  | JStr s =>
      if String.eqb s "load" then Some UntilLoad
      else if String.eqb s "domcontentloaded" then Some UntilDomContentLoaded
      else if String.eqb s "networkidle" then Some UntilNetworkIdle
      else None
  | _ => None
  end.

(** The duration of a wait: a number of milliseconds, 1000 when absent. *)
Definition duration_of (v : jsval) : option Z :=
  match v with
  | JUndefined => Some 1000
  | JNum d => Some d
  | _ => None
  end.

(** [requests j p]: the JSON action [j] is a variant of the vocabulary with
    valid parameters, and [p] is the primitive that matches it. *)
Inductive requests (j : jsval) : primitive -> Prop :=
| req_click x y b :
    Js.prop j "type" = JStr "click" ->
    Js.prop j "x" = JNum x -> Js.prop j "y" = JNum y ->
    button_of (Js.prop j "button") = Some b ->
    requests j (Click x y b)
| req_double_click x y b :
    Js.prop j "type" = JStr "double_click" ->
    Js.prop j "x" = JNum x -> Js.prop j "y" = JNum y ->
    button_of (Js.prop j "button") = Some b ->
    requests j (DoubleClick x y b)
| req_scroll x y dx dy :
    Js.prop j "type" = JStr "scroll" ->
    Js.prop j "x" = JNum x -> Js.prop j "y" = JNum y ->
    Js.prop j "scroll_x" = JNum dx -> Js.prop j "scroll_y" = JNum dy ->
    requests j (Scroll x y dx dy)
| req_type text :
    Js.prop j "type" = JStr "type" ->
    Js.prop j "text" = JStr text ->
    requests j (TypeText text)
| req_keypress keys :
    Js.prop j "type" = JStr "keypress" ->
    Js.prop j "keys" = JArr (map JStr keys) ->
    requests j (PressKeys keys)
| req_wait d :
    Js.prop j "type" = JStr "wait" ->
    duration_of (Js.prop j "duration") = Some d ->
    requests j (Wait d)
| req_navigate url policy :
    Js.prop j "type" = JStr "navigate" ->
    Js.prop j "url" = JStr url -> url <> EmptyString ->
    policy_of (Js.prop j "wait_until") = Some policy ->
    requests j (Navigate url policy).

Section BrowserSession.

Variable H : host.

Local Notation "x <- m ;; k" := (bind H m (fun x => k))
  (at level 61, m at next level, right associativity).
Local Notation "m ;; k" := (bind H m (fun _ => k))
  (at level 61, right associativity).

(** [pressKeys]: each named key, in the given order, one after the
    other. *)
Fixpoint pressKeys (page : jsval) (keys : list string) : M H unit :=
  match keys with
  | [] => ret H tt
  | key :: rest =>
      await H (KeyboardPress page (JStr key)) ;; pressKeys page rest
  end.

(** What one invocation of a primitive does to the page. *)
Definition perform (page : jsval) (p : primitive) : M H unit :=
  match p with
  | Click x y b =>
      await H (MouseClick page (JNum x) (JNum y) (JStr (button_name b))) ;;
      ret H tt
  | DoubleClick x y b =>
      await H (MouseDblclick page (JNum x) (JNum y)
                 (JStr (button_name b))) ;;
      ret H tt
  | Scroll x y dx dy =>
      await H (MouseMove page (JNum x) (JNum y)) ;;
      await H (EvaluateScrollBy page (JNum dx) (JNum dy)) ;;
      ret H tt
  | TypeText text =>
      await H (KeyboardType page (JStr text)) ;; ret H tt
  | PressKeys keys => pressKeys page keys
  | Wait d =>
      await H (PageWaitForTimeout page (JNum d)) ;; ret H tt
  | Navigate url policy =>
      try_catch H
        (await H (PageGoto page (JStr url) (JStr (policy_name policy))) ;;
         ret H tt)
        (fun err =>
           console H ErrorLevel [JStr "navigation failed"; JStr url; err])
  end.

End BrowserSession.

(** The fragments of a response that carry text, and what the loop reads
    from a response, stated on lists. *)
Definition output_items (response : jsval) : list jsval :=
  match Js.prop response "output" with
  | JArr items => items
  | _ => []
  end.

Definition is_computer_call (item : jsval) : bool :=
  Js.is_str (Js.prop item "type") "computer_call".


(** A response as the model endpoint produces it: an object whose
    [output], when present, is an array of items none of which is [null]. *)
Definition well_formed (response : jsval) : bool :=
  negb (Js.nullish response)
  && match Js.prop response "output" with
     | JUndefined | JNull => true
     | JArr items => forallb (fun item => negb (Js.nullish item)) items
     | _ => false
     end.




(** The safety checks a follow-up request acknowledges. *)
Definition acknowledged (payload : jsval) : jsval :=
  Js.prop (Js.index0 (Js.prop payload "input")) "acknowledged_safety_checks".

(** The viewport a request declares to the model. *)
Definition declared_viewport (payload : jsval) : option (Z * Z) :=
  match Js.prop payload "tools" with
  | JArr [tool] =>
      match Js.prop tool "display_width", Js.prop tool "display_height" with
      | JNum w, JNum h => Some (w, h)
      | _, _ => None
      end
  | _ => None
  end.

(** The failures the specification calls recoverable: an action of an
    unknown kind, a navigation whose target is missing or not a string, and
    a navigation the browser rejects.  The kind of an action is whatever
    its [type] holds: it is unknown when it is none of the strings of the
    vocabulary, be it another string, missing, or not a string at all; the
    warning prints it, so it must have a string form. *)
Inductive recoverable (H : host) (page action : jsval) (w : world H)
  : Prop :=
| unknown_kind (shown : string) :
    Js.nullish action = false ->
    (forall kind, In kind vocabulary -> Js.prop action "type" <> JStr kind) ->
    Js.to_string (Js.prop action "type") = Some shown ->
    recoverable H page action w
| invalid_target (kind : string) :
    Js.prop action "type" = JStr kind ->
    In kind navigation_kinds ->
    Js.is_string (Js.prop action "url") = false ->
    recoverable H page action w
| failed_navigation (kind : string) (reason : jsval) (w' : world H) :
    Js.prop action "type" = JStr kind ->
    In kind navigation_kinds ->
    valid_url (Js.prop action "url") = true ->
    exec H (PageGoto page (Js.prop action "url")
              (Js.default (Js.prop action "wait_until") (JStr "load"))) w
    = (Reject reason, w') ->
    recoverable H page action w.

(** The events one pass of the loop can produce. *)
Inductive loop_event : event -> Prop :=
| le_console lvl args : loop_event (EvConsole lvl args)
| le_dispatch c r : is_dispatch_call c = true -> loop_event (EvCall c r)
| le_screenshot page r : loop_event (EvCall (PageScreenshot page true) r)
| le_request id call_id ack shot r :
    loop_event (EvCall (ResponsesCreate (next_request id call_id ack shot)) r).

(** The events a whole run can produce. *)
Inductive run_event : event -> Prop :=
| re_loop e : loop_event e -> run_event e
| re_launch r : run_event (EvCall (ChromiumLaunch launch_options) r)
| re_new_page browser r : run_event (EvCall (BrowserNewPage browser) r)
| re_viewport page r : run_event (EvCall (PageSetViewportSize page 1024 768) r)
| re_first prompt r :
    run_event (EvCall (ResponsesCreate (first_request prompt)) r)
| re_close browser r : run_event (EvCall (BrowserClose browser) r).

(** Every request declares the 1024 by 768 viewport, and the page is given
    the same size. *)
Definition viewport_ok (e : event) : Prop :=
  match e with
  | EvCall (ResponsesCreate payload) _ =>
      declared_viewport payload = Some (1024, 768)
  | EvCall (PageSetViewportSize _ width height) _ =>
      (width, height) = (1024, 768)
  | _ => True
  end.

(** Responses the loop cannot read: an [output] that is neither absent nor
    an array, a [null] item met before any computer call, and a computer
    call without an action. *)
Inductive malformed (response : jsval) : Prop :=
| output_not_array :
    Js.nullish response = false ->
    Js.nullish (Js.prop response "output") = false ->
    (forall items, Js.prop response "output" <> JArr items) ->
    malformed response
| null_item (pre : list jsval) (item : jsval) (post : list jsval) :
    Js.prop response "output" = JArr (pre ++ item :: post) ->
    forallb (fun i => negb (Js.nullish i)) pre = true ->
    existsb is_computer_call pre = false ->
    Js.nullish item = true ->
    malformed response
| call_without_action (cc : jsval) :
    well_formed response = true ->
    find is_computer_call (output_items response) = Some cc ->
    Js.nullish (Js.prop cc "action") = true ->
    malformed response.

Definition is_request (c : call) : bool :=
  match c with ResponsesCreate _ => true | _ => false end.

(** A press of a key that the page fulfilled, given as the key and the
    page's answer. *)
Definition pressed (page : jsval) (ka : jsval * jsval) : call * reply :=
  (KeyboardPress page (fst ka), Fulfil (snd ka)).

Definition is_launch (c : call) : bool :=
  match c with ChromiumLaunch _ => true | _ => false end.

Definition is_new_page (c : call) : bool :=
  match c with BrowserNewPage _ => true | _ => false end.

Definition is_goto (c : call) : bool :=
  match c with PageGoto _ _ _ => true | _ => false end.

Definition is_viewport (c : call) : bool :=
  match c with PageSetViewportSize _ _ _ => true | _ => false end.

(** The screenshot a follow-up request carries. *)
Definition image_url (payload : jsval) : jsval :=
  Js.prop (Js.prop (Js.index0 (Js.prop payload "input")) "output")
          "image_url".

(* ================================================================== *)
(** ** prompts.ts: the execution prompt and its history section *)

Module Prompts.

Record history_entry : Type := Entry {
  content : string;
  timestamp : string
}.

(** [l.slice(-n)]: the last [n] elements, all of them when there are
    fewer. *)
Definition slice_last {A : Type} (n : nat) (l : list A) : list A :=
  skipn (List.length l - n) l.

(** [history && history.length > 0 ? history.slice(-3).map(item =>
    item.content) : []]; an absent history is [None]. *)
Definition recent_history (history : option (list history_entry))
  : list string :=
  match history with
  | Some h =>
      if (0 <? List.length h)%nat then map content (slice_last 3 h) else []
  | None => []
  end.

(** [contents.map((content, idx) => `${idx + 1}. ${content}`)], counting
    from [idx]. *)
Fixpoint numbered (idx : nat) (contents : list string) : list string :=
  match contents with
  | [] => []
  | c :: rest =>
      (Js.decimal (Z.of_nat (idx + 1)) ++ ". " ++ c) :: numbered (S idx) rest
  end.

Definition rule_line : string :=
  "______________________________________________________________________________".

Definition nl : string := Js.newline.

Definition history_section (recentHistory : list string) : string :=
  if (0 <? List.length recentHistory)%nat then
    nl ++ rule_line ++ nl
    ++ "Previous Results (DO NOT REPEAT):" ++ nl
    ++ "The following are the last "
    ++ Js.decimal (Z.of_nat (List.length recentHistory))
    ++ " result(s) from previous executions of this task. " ++ nl
    ++ "Your new response should NOT repeat or duplicate information already covered in these previous results:"
    ++ nl ++ nl
    ++ String.concat (nl ++ nl) (numbered 0 recentHistory) ++ nl
    ++ "END OF PREVIOUS RESULTS" ++ nl
    ++ rule_line ++ nl
  else EmptyString.

(** [buildRuleExecutionPrompt(rulePrompt, history)]. *)
Definition buildRuleExecutionPrompt (rulePrompt : string)
           (history : option (list history_entry)) : string :=
  let recentHistory := recent_history history in
  "Your job is to execute the following task and provide a concise answer."
  ++ nl ++ nl
  ++ "  Task: " ++ rulePrompt ++ nl
  ++ history_section recentHistory ++ nl
  ++ rule_line ++ nl
  ++ "  Guidelines:" ++ nl
  ++ "- Provide a casual, simple, and to-the-point response in the content field"
  ++ nl
  ++ "- If the task successfully finds meaningful or important information, mark it as relevant"
  ++ nl
  ++ "- If the task completes but doesn't find anything important or actionable (e.g., no new updates, no matching results, nothing noteworthy), still include what you found in content but mark it as not relevant"
  ++ nl
  ++ "- Your output will be read directly by the user, so keep it conversational"
  ++ nl
  ++ "- Do not output code, scripts, or technical artifacts unless specifically requested"
  ++ nl
  ++ (if (0 <? List.length recentHistory)%nat
      then "- IMPORTANT: Do not repeat information that was already provided in the previous results shown above"
      else EmptyString)
  ++ nl ++ nl
  ++ "Return " ++ nl
  ++ "Content: Your answer to the task, conscise and to the point. Include this even if foundRelevantResults is false."
  ++ nl
  ++ "foundRelevantResults: Whether the task yielded important or meaningful results"
  ++ nl ++ nl.

(** The history the rule service stores after a relevant result:
    [[...currentHistory, newEntry]] with [currentHistory = rule.history ||
    []]. *)
Definition updated_history (history : option (list history_entry))
                           (newEntry : history_entry)
  : list history_entry :=
  match history with
  | Some h => h ++ [newEntry]
  | None => [newEntry]
  end.

End Prompts.

(* ================================================================== *)
(** ** qstashService.ts: cadences, cron expressions and their labels *)

Module QStash.

(** The [switch (normalized)] of [scheduleExecution], where [normalized] is
    the cadence in lower case with runs of white space replaced by an
    underscore; [None] is the thrown "Unsupported cadence" error. *)
Definition cron_of_cadence (normalized : string) : option string :=
  if String.eqb normalized "per_minute" then Some "* * * * *"
  else if String.eqb normalized "minute" then Some "* * * * *"
  else if String.eqb normalized "minutely" then Some "* * * * *"
  else if String.eqb normalized "hourly" then Some "0 * * * *"
  else if String.eqb normalized "hour" then Some "0 * * * *"
  else if String.eqb normalized "daily" then Some "0 0 * * *"
  else if String.eqb normalized "day" then Some "0 0 * * *"
  else if String.eqb normalized "weekly" then Some "0 0 * * 0"
  else if String.eqb normalized "week" then Some "0 0 * * 0"
  else None.

(** [cronToFrequency(cron)]. *)
Definition cronToFrequency (cron : string) : string :=
  if String.eqb cron "* * * * *" then "Every minute"
  else if String.eqb cron "*/1 * * * *" then "Every minute"
  else if String.eqb cron "0 * * * *" then "Hourly"
  else if String.eqb cron "0 0 * * *" then "Daily"
  else if String.eqb cron "0 0 * * 0" then "Weekly"
  else cron.

End QStash.

(** ** Scripted conversations used to exercise the statements *)

Definition no_failure (c : call) : bool := false.

Definition page_creation_fails (c : call) : bool :=
  match c with BrowserNewPage _ => true | _ => false end.

Definition pointer_move_fails (c : call) : bool :=
  match c with MouseMove _ _ _ => true | _ => false end.

Definition second_press_fails (c : call) : bool :=
  match c with
  | KeyboardPress _ (JStr "a") => true
  | _ => false
  end.

Definition scroll_action : jsval :=
  JObj [("type", JStr "scroll"); ("x", JNum 10); ("y", JNum 20);
        ("scroll_x", JNum 0); ("scroll_y", JNum 300)].

Definition keypress_action : jsval :=
  JObj [("type", JStr "keypress");
        ("keys", JArr [JStr "Control"; JStr "a"])].

Definition goto_action : jsval :=
  JObj [("type", JStr "goto"); ("url", JStr "https://example.com")].

Definition working_item : jsval :=
  JObj [("type", JStr "reasoning");
        ("summary",
         JArr [JObj [("type", JStr "summary_text");
                     ("text", JStr "Working on it")]])].

Definition click_call_item : jsval :=
  JObj [("type", JStr "computer_call");
        ("call_id", JStr "call_1");
        ("action",
         JObj [("type", JStr "click"); ("x", JNum 50); ("y", JNum 50)]);
        ("pending_safety_checks", JArr [])].

Definition click_action : jsval :=
  JObj [("type", JStr "click"); ("x", JNum 50); ("y", JNum 50)].

Definition screenshot_action : jsval := JObj [("type", JStr "screenshot")].

Definition drag_action : jsval :=
  JObj [("type", JStr "drag");
        ("path", JArr [JObj [("x", JNum 1); ("y", JNum 2)]])].

(** An action without a [type]. *)
Definition untyped_action : jsval := JObj [("x", JNum 1); ("y", JNum 2)].

Definition turn_with (id : string) (action : jsval) (pending : jsval)
  : jsval :=
  JObj [("id", JStr id);
        ("output",
         JArr [JObj [("type", JStr "reasoning");
                     ("summary",
                      JArr [JObj [("type", JStr "summary_text");
                                  ("text", JStr "Working on it")]])];
               JObj [("type", JStr "computer_call");
                     ("call_id", JStr "call_1");
                     ("action", action);
                     ("pending_safety_checks", pending)]])].

Definition done_turn : jsval :=
  JObj [("id", JStr "resp_2");
        ("output",
         JArr [JObj [("type", JStr "text"); ("text", JStr "Done")];
               JObj [("type", JStr "text");
                     ("text", JStr "Task complete")]])].

Definition safety_token : jsval :=
  JObj [("id", JStr "sc_1"); ("code", JStr "malicious_instructions");
        ("message", JStr "check the page")].

(* ================================================================== *)
(** ** Properties *)

Section Properties.

Variable H : host.

Local Notation "x <- m ;; k" := (bind H m (fun x => k))
  (at level 61, m at next level, right associativity).
Local Notation "m ;; k" := (bind H m (fun _ => k))
  (at level 61, right associativity).

Lemma interactions_app (t1 t2 : list event) :
  interactions (t1 ++ t2) = (interactions t1 ++ interactions t2)%list.
Proof.
  induction t1 as [| [c r | lvl args] t1 IH]; simpl; congruence.
Qed.

Lemma calls_of_app (t1 t2 : list event) :
  calls_of (t1 ++ t2) = (calls_of t1 ++ calls_of t2)%list.
Proof. unfold calls_of. now rewrite interactions_app, map_app. Qed.

(** Reading [type] off a value that has one. *)
Lemma member_of_prop (j : jsval) (k : string) (v : jsval) :
  Js.prop j k = v -> v <> JUndefined -> Js.member j k = Some v.
Proof.
  intros Hp Hv. destruct j; simpl in Hp; try congruence.
  unfold Js.member. simpl. now rewrite Hp.
Qed.

(** Unfold the monad and let the host answer every call in sight. *)
Ltac host_step :=
  match goal with
  | |- context [exec H ?c ?w] =>
      let v := fresh "v" in
      let e := fresh "e" in
      let w' := fresh "w" in
      destruct (exec H c w) as [[v | e] w']
  end.

Ltac run_dispatch :=
  unfold handleModelAction, bind, lift, log, console, ret, throw,
    try_catch, await;
  repeat (cbn; try host_step).


Lemma events_prefixed {A} (t : list event) (r : run H A) :
  events (prefixed H t r) = (t ++ events r)%list.
Proof. now destruct r. Qed.

Lemma outcome_prefixed {A} (t : list event) (r : run H A) :
  outcome_of (prefixed H t r) = outcome_of r.
Proof. now destruct r. Qed.

Lemma events_await (c : call) (w : world H) :
  events (await H c w) = [EvCall c (fst (exec H c w))].
Proof. unfold await. now destruct (exec H c w). Qed.

Lemma events_bind {A B} (m : M H A) (f : A -> M H B) (w : world H) :
  events (bind H m f w)
  = (events (m w)
     ++ match outcome_of (m w) with
        | Returned a => events (f a (world_after (m w)))
        | _ => []
        end)%list.
Proof.
  unfold bind. destruct (m w) as [[a | e |] w1 t1]; cbn;
    rewrite ?app_nil_r; try reflexivity.
  now destruct (f a w1).
Qed.

Lemma outcome_bind {A B} (m : M H A) (f : A -> M H B) (w : world H) :
  outcome_of (bind H m f w)
  = match outcome_of (m w) with
    | Returned a => outcome_of (f a (world_after (m w)))
    | Thrown e => Thrown e
    | Pending => Pending
    end.
Proof.
  unfold bind. destruct (m w) as [[a | e |] w1 t1]; cbn;
    try reflexivity.
  now destruct (f a w1).
Qed.

Lemma bind_ret {A B} (a : A) (k : A -> M H B) (w : world H) :
  bind H (ret H a) k w = k a w.
Proof. unfold bind, ret. cbn. now destruct (k a w). Qed.

Lemma bind_throw {A B} (e : jsval) (k : A -> M H B) (w : world H) :
  bind H (throw H e) k w = Run (Thrown e) w [].
Proof. reflexivity. Qed.

Lemma bind_console {B} (lvl : level) (args : list jsval)
                   (k : unit -> M H B) (w : world H) :
  bind H (console H lvl args) k w
  = prefixed H [EvConsole lvl args] (k tt w).
Proof. reflexivity. Qed.

(** *** Parameters and their defaults *)

Lemma button_default (v : jsval) (b : button) :
  button_of v = Some b -> Js.default v (JStr "left") = JStr (button_name b).
Proof.
  destruct v as [| | | | s | |]; simpl; try discriminate.
  - now intros [= <-].
  - destruct (String.eqb_spec s "left") as [-> |];
      [now intros [= <-] |].
    destruct (String.eqb_spec s "middle") as [-> |];
      [now intros [= <-] |].
    destruct (String.eqb_spec s "right") as [-> |];
      [now intros [= <-] | discriminate].
Qed.

Lemma policy_default (v : jsval) (p : wait_policy) :
  policy_of v = Some p -> Js.default v (JStr "load") = JStr (policy_name p).
Proof.
  destruct v as [| | | | s | |]; simpl; try discriminate.
  - now intros [= <-].
  - destruct (String.eqb_spec s "load") as [-> |];
      [now intros [= <-] |].
    destruct (String.eqb_spec s "domcontentloaded") as [-> |];
      [now intros [= <-] |].
    destruct (String.eqb_spec s "networkidle") as [-> |];
      [now intros [= <-] | discriminate].
Qed.

Lemma duration_default (v : jsval) (d : Z) :
  duration_of v = Some d -> Js.coalesce v (JNum 1000) = JNum d.
Proof.
  destruct v; simpl; try discriminate; now intros [= <-].
Qed.

Lemma nonempty_truthy (u : string) :
  u <> EmptyString -> Js.truthy (JStr u) = true.
Proof.
  intros Hu. simpl. now destruct (String.eqb_spec u EmptyString).
Qed.

Lemma map_JStr_injective (l1 l2 : list string) :
  map JStr l1 = map JStr l2 -> l1 = l2.
Proof.
  revert l2. induction l1 as [| a l1 IH]; intros [| b l2]; simpl;
    try discriminate; auto.
  intros [= -> Hrest]. f_equal. now apply IH.
Qed.

(** A valid action matches one primitive only. *)
Lemma requests_functional (j : jsval) (p q : primitive) :
  requests j p -> requests j q -> p = q.
Proof.
  intros Hp Hq.
  destruct Hp; destruct Hq; try congruence.
  match goal with
  | Ha : Js.prop j "keys" = JArr (map JStr ?a),
    Hb : Js.prop j "keys" = JArr (map JStr ?b) |- _ =>
      rewrite Ha in Hb; injection Hb as Hb;
      apply map_JStr_injective in Hb; now subst
  end.
Qed.

(** *** The dispatcher *)

Lemma press_each_pressKeys (page : jsval) (keys : list string)
                           (w : world H) :
  press_each H page (map JStr keys) w = pressKeys H page keys w.
Proof.
  revert w. induction keys as [| key keys IH]; intros w; simpl.
  - reflexivity.
  - unfold bind. destruct (await H _ w) as [[a | e |] w1 t1];
      try reflexivity.
    now rewrite IH.
Qed.

(** C5.  For every action of the vocabulary with valid parameters (a
    click, a double click, a scroll, typed text, a key-press sequence, a
    wait or a navigation), [handleModelAction] interacts with the page
    exactly as one invocation of the matching Browser Session primitive
    does (the same calls in the same order with the same answers, the same
    outcome), and no other primitive matches the action. *)
Theorem dispatch_invokes_matching_primitive
        (page j : jsval) (p : primitive) (w : world H) :
  requests j p ->
  same_interaction (handleModelAction H page j w) (perform H page p w)
  /\ (forall q, requests j q -> q = p).
Proof.
  intros Hreq.
  split; [| intros q Hq; exact (requests_functional j q p Hq Hreq)].
  destruct Hreq as
    [x y b Hty Hx Hy Hb | x y b Hty Hx Hy Hb | x y dx dy Hty Hx Hy Hdx Hdy
    | text Hty Htext | keys Hty Hkeys | d Hty Hd
    | url policy Hty Hurl Hne Hpol];
    pose proof (member_of_prop j _ _ Hty ltac:(discriminate)) as Hm;
    unfold handleModelAction, perform; rewrite Hm.
  - rewrite Hx, Hy, (button_default _ _ Hb). run_dispatch; now repeat split.
  - rewrite Hx, Hy, (button_default _ _ Hb). run_dispatch; now repeat split.
  - rewrite Hx, Hy, Hdx, Hdy. run_dispatch; now repeat split.
  - rewrite Htext. run_dispatch; now repeat split.
  - rewrite Hkeys.
    unfold bind, lift, log, console, ret. cbn.
    rewrite press_each_pressKeys.
    destruct (pressKeys H page keys w); now repeat split.
  - rewrite (duration_default _ _ Hd). run_dispatch; now repeat split.
  - rewrite Hurl, (policy_default _ _ Hpol).
    cbn [switch_arm Js.is_str String.eqb Ascii.eqb Bool.eqb].
    rewrite (nonempty_truthy _ Hne). run_dispatch; now repeat split.
Qed.

(** C9.  A wait action suspends the page for its [duration] when the
    field is present and for exactly 1000 milliseconds when it is
    absent: that one timer call is all the dispatch does. *)
Theorem wait_suspends_for_duration (page j : jsval) (w : world H) :
  Js.prop j "type" = JStr "wait" ->
  (Js.nullish (Js.prop j "duration") = false ->
   calls_of (events (handleModelAction H page j w))
   = [PageWaitForTimeout page (Js.prop j "duration")]) /\
  (Js.nullish (Js.prop j "duration") = true ->
   calls_of (events (handleModelAction H page j w))
   = [PageWaitForTimeout page (JNum 1000)]).
Proof.
  intros Hty.
  pose proof (member_of_prop j _ _ Hty ltac:(discriminate)) as Hm.
  split; intros Hd; unfold handleModelAction; rewrite Hm;
    unfold Js.coalesce; rewrite Hd; run_dispatch; reflexivity.
Qed.

Lemma navigation_kind_arm (k : string) :
  In k navigation_kinds -> switch_arm (JStr k) = ArmNavigate.
Proof.
  simpl. intros [<- | [<- | [<- | []]]]; reflexivity.
Qed.

Lemma valid_url_string (url : jsval) :
  valid_url url = true -> exists u, url = JStr u /\ u <> EmptyString.
Proof.
  unfold valid_url. destruct url as [| | | | u | |]; simpl;
    rewrite ?andb_false_r; try discriminate.
  intros Hu. exists u. split; [reflexivity |].
  intros ->. discriminate.
Qed.

(** What the navigation block does, whichever of its labels was taken. *)
Lemma navigation_block (page j : jsval) (k : string) (w : world H) :
  In k navigation_kinds -> Js.prop j "type" = JStr k ->
  let url := Js.prop j "url" in
  let target :=
    PageGoto page url (Js.default (Js.prop j "wait_until") (JStr "load")) in
  outcome_of (handleModelAction H page j w) = Returned tt /\
  if valid_url url then
    interactions (events (handleModelAction H page j w))
    = [(target, fst (exec H target w))]
    /\ world_after (handleModelAction H page j w) = snd (exec H target w)
  else
    interactions (events (handleModelAction H page j w)) = []
    /\ world_after (handleModelAction H page j w) = w.
Proof.
  intros Hk Hty url target.
  pose proof (member_of_prop j _ _ Hty ltac:(discriminate)) as Hm.
  remember (handleModelAction H page j w) as r eqn:Hr.
  unfold handleModelAction in Hr. rewrite Hm in Hr.
  unfold bind at 1, lift at 1, ret at 1 in Hr.
  cbn [outcome_of world_after events app] in Hr.
  rewrite (navigation_kind_arm _ Hk) in Hr.
  fold url in Hr. destruct (valid_url url) eqn:Hv.
  - destruct (valid_url_string _ Hv) as [u [Hu Hne]].
    unfold valid_url in Hv. apply andb_true_iff in Hv as [Ht Hs].
    rewrite Ht, Hs in Hr. subst target r. rewrite Hu.
    run_dispatch; now repeat split.
  - unfold valid_url in Hv.
    replace (negb (Js.truthy url) || negb (Js.is_string url)) with true
      in Hr by (rewrite <- negb_andb, Hv; reflexivity).
    subst r. run_dispatch; now repeat split.
Qed.

(** C10.  [open_url] and [goto] are aliases of [navigate]: two actions
    of any of the three kinds with the same [url] and [wait_until] are
    dispatched with the same validation, the same [page.goto] call and the
    same absorbed failure; none of the kinds is treated as unknown. *)
Theorem navigation_aliases (page j1 j2 : jsval) (k1 k2 : string)
                           (w : world H) :
  In k1 navigation_kinds -> In k2 navigation_kinds ->
  Js.prop j1 "type" = JStr k1 -> Js.prop j2 "type" = JStr k2 ->
  Js.prop j1 "url" = Js.prop j2 "url" ->
  Js.prop j1 "wait_until" = Js.prop j2 "wait_until" ->
  same_interaction (handleModelAction H page j1 w)
                   (handleModelAction H page j2 w)
  /\ (valid_url (Js.prop j1 "url") = true ->
      calls_of (events (handleModelAction H page j1 w))
      = [PageGoto page (Js.prop j1 "url")
           (Js.default (Js.prop j1 "wait_until") (JStr "load"))])
  /\ (valid_url (Js.prop j1 "url") = false ->
      calls_of (events (handleModelAction H page j1 w)) = []).
Proof.
  intros Hk1 Hk2 Hty1 Hty2 Hurl Hwait.
  destruct (navigation_block page j1 k1 w Hk1 Hty1) as [Ho1 Hb1].
  destruct (navigation_block page j2 k2 w Hk2 Hty2) as [Ho2 Hb2].
  rewrite <- Hurl, <- Hwait in Hb2.
  unfold same_interaction, calls_of.
  destruct (valid_url (Js.prop j1 "url"));
    destruct Hb1 as [Hi1 Hw1]; destruct Hb2 as [Hi2 Hw2];
    rewrite Ho1, Ho2, Hi1, Hi2, Hw1, Hw2;
    repeat split; intros; (reflexivity || discriminate).
Qed.

(** The dispatcher reaches the page only through pointer, keyboard,
    timer and navigation calls. *)
Lemma press_each_calls (page : jsval) (keys : list jsval) (w : world H) :
  Forall (fun c => is_dispatch_call c = true)
         (calls_of (events (press_each H page keys w))).
Proof.
  revert w. induction keys as [| key keys IH]; intros w; simpl.
  - constructor.
  - rewrite events_bind, calls_of_app. apply Forall_app. split.
    + unfold await. destruct (exec H _ w) as [r w']. cbn.
      now repeat constructor.
    + destruct (outcome_of _); [apply IH | constructor | constructor].
Qed.

Lemma dispatch_calls_only (page action : jsval) (w : world H) :
  Forall (fun c => is_dispatch_call c = true)
         (calls_of (events (handleModelAction H page action w))).
Proof.
  unfold handleModelAction.
  destruct (Js.member action "type") as [ty |]; [| now constructor].
  unfold bind at 1, lift at 1, ret at 1.
  cbn [outcome_of world_after events app].
  destruct (switch_arm ty).
  5: { destruct (Js.iterate (Js.prop action "keys")) as [keys |].
       - unfold bind, lift, log, console, ret. cbn.
         rewrite !events_prefixed. cbn. apply press_each_calls.
       - cbn. constructor. }
  6: { destruct (negb (Js.truthy (Js.prop action "url"))
                 || negb (Js.is_string (Js.prop action "url")));
       [cbn; constructor |].
       destruct (Js.to_string (Js.prop action "url"));
         run_dispatch; now repeat constructor. }
  7: { destruct (Js.to_string ty); cbn; constructor. }
  all: run_dispatch; now repeat constructor.
Qed.

(** A screenshot request reaches no primitive. *)
Lemma screenshot_request_noop (page j : jsval) (w : world H) :
  Js.prop j "type" = JStr "screenshot" ->
  outcome_of (handleModelAction H page j w) = Returned tt
  /\ world_after (handleModelAction H page j w) = w
  /\ interactions (events (handleModelAction H page j w)) = [].
Proof.
  intros Hty.
  pose proof (member_of_prop j _ _ Hty ltac:(discriminate)) as Hm.
  unfold handleModelAction. rewrite Hm. now cbn.
Qed.

Lemma unknown_kind_arm (kind : string) :
  ~ In kind vocabulary -> switch_arm (JStr kind) = ArmDefault.
Proof.
  intros Hout. unfold switch_arm, Js.is_str.
  repeat match goal with
         | |- context [String.eqb kind ?s] =>
             destruct (String.eqb_spec kind s) as [-> |];
             [exfalso; apply Hout; simpl; tauto |]
         end.
  reflexivity.
Qed.

Lemma outside_vocabulary_arm (ty : jsval) :
  (forall kind, In kind vocabulary -> ty <> JStr kind) ->
  switch_arm ty = ArmDefault.
Proof.
  intros Hout. destruct ty as [| | b | n | kind | l | fs]; try reflexivity.
  apply unknown_kind_arm. intros Hin. now apply (Hout kind Hin).
Qed.

(** An unrecognised kind: one warning, no call, normal return. *)
Lemma unknown_kind_noop (page action : jsval) (shown : string)
                        (w : world H) :
  Js.nullish action = false ->
  (forall kind, In kind vocabulary -> Js.prop action "type" <> JStr kind) ->
  Js.to_string (Js.prop action "type") = Some shown ->
  handleModelAction H page action w
  = Run (Returned tt) w
        [EvConsole LogLevel
           [JStr "[LLMService]"; JStr "handleModelAction invoked";
            Js.prop action "type"; action];
         EvConsole WarnLevel
           [JStr ("Unrecognized action type: " ++ shown)]].
Proof.
  intros Hnn Hout Hshown.
  unfold handleModelAction, Js.member. rewrite Hnn.
  unfold bind at 1, lift at 1, ret at 1.
  cbn [outcome_of world_after events app].
  rewrite (outside_vocabulary_arm _ Hout), Hshown.
  reflexivity.
Qed.

(** *** Reading a response *)

Lemma find_computer_call_spec (items : list jsval) :
  forallb (fun item => negb (Js.nullish item)) items = true ->
  find_computer_call items
  = Some (match find is_computer_call items with
          | Some cc => cc
          | None => JUndefined
          end).
Proof.
  induction items as [| item items IH]; simpl; [reflexivity |].
  intros Hall. apply andb_true_iff in Hall as [Hitem Hrest].
  unfold Js.member, is_computer_call.
  destruct (Js.nullish item); [discriminate |].
  destruct (Js.is_str (Js.prop item "type") "computer_call");
    [reflexivity | now apply IH].
Qed.


Lemma output_find_spec (response : jsval) :
  well_formed response = true ->
  output_find response
  = Some (match find is_computer_call (output_items response) with
          | Some cc => cc
          | None => JUndefined
          end).
Proof.
  unfold well_formed, output_find, output_items, Js.member, optional_array.
  intros Hwf. apply andb_true_iff in Hwf as [Hnn Hout].
  destruct (Js.nullish response); [discriminate |].
  destruct (Js.prop response "output"); simpl in *;
    try reflexivity; try discriminate.
  now apply find_computer_call_spec.
Qed.


Lemma join_strings (sep : string) (texts : list string) :
  Js.join sep (map JStr texts) = Some (String.concat sep texts).
Proof.
  induction texts as [| t texts IH]; simpl; [reflexivity |].
  destruct texts as [| t' texts]; [reflexivity |].
  change (map JStr (t' :: texts)) with (JStr t' :: map JStr texts) in *.
  cbn [map]. rewrite IH. reflexivity.
Qed.

Lemma computer_call_truthy (cc : jsval) :
  is_computer_call cc = true -> Js.truthy cc = true.
Proof.
  unfold is_computer_call. destruct cc; simpl; try discriminate.
  reflexivity.
Qed.


(** *** One pass of the loop *)

(** With no computer call in sight the pass ends the run. *)
Lemma iteration_finishes (page : jsval) (step : nat) (response cc : jsval)
                         (w : world H) :
  output_find response = Some cc -> Js.truthy cc = false ->
  loop_iteration H page step response w
  = Run (match final_text response with
         | Some text => Returned (Done text)
         | None => Thrown type_error
         end)
        w
        [EvConsole LogLevel [JStr "response"; response];
         EvConsole LogLevel
           [JStr "[LLMService]";
            JStr "No more computer calls, agent finished after";
            JNum (Z.of_nat step); JStr "steps"]].
Proof.
  intros Hfind Hfalsy. unfold loop_iteration.
  rewrite bind_console, Hfind. cbn [lift].
  rewrite bind_ret, Hfalsy. cbn [negb].
  unfold log. rewrite bind_console.
  destruct (final_text response); cbn [lift];
    [rewrite bind_ret | rewrite bind_throw]; reflexivity.
Qed.

(** A response whose [output] cannot be searched stops the pass with a
    TypeError. *)
Lemma iteration_unreadable_output (page : jsval) (step : nat)
                                  (response : jsval) (w : world H) :
  output_find response = None ->
  loop_iteration H page step response w
  = Run (Thrown type_error) w
        [EvConsole LogLevel [JStr "response"; response]].
Proof.
  intros Hfind. unfold loop_iteration.
  rewrite bind_console, Hfind. cbn [lift].
  now rewrite bind_throw.
Qed.

(** So does a computer call without an action. *)
Lemma iteration_unreadable_action (page : jsval) (step : nat)
                                  (response cc : jsval) (w : world H) :
  output_find response = Some cc -> Js.truthy cc = true ->
  Js.member (Js.prop cc "action") "type" = None ->
  loop_iteration H page step response w
  = Run (Thrown type_error) w
        [EvConsole LogLevel [JStr "response"; response]].
Proof.
  intros Hfind Htruthy Hty. unfold loop_iteration.
  rewrite bind_console, Hfind. cbn [lift].
  rewrite bind_ret, Htruthy. cbn [negb].
  rewrite Hty. cbn [lift].
  now rewrite bind_throw.
Qed.

(** With a computer call the pass dispatches its action, then settles,
    observes and reports back. *)
Lemma iteration_acts (page : jsval) (step : nat) (response cc ty : jsval)
                     (w : world H) :
  output_find response = Some cc -> Js.truthy cc = true ->
  Js.member (Js.prop cc "action") "type" = Some ty ->
  loop_iteration H page step response w
  = let announce :=
      [EvConsole LogLevel [JStr "response"; response];
       EvConsole LogLevel
         [JStr "[LLMService]";
          JStr ("Step " ++ Js.decimal (Z.of_nat step)
                ++ ": executing action");
          ty; JStr "call_id"; Js.prop cc "call_id"]] in
    let d := handleModelAction H page (Js.prop cc "action") w in
    match outcome_of d with
    | Returned _ =>
        let r := observe_and_report H page response cc (world_after d) in
        Run (outcome_of r) (world_after r)
            (announce ++ events d ++ events r)
    | Thrown e => Run (Thrown e) (world_after d) (announce ++ events d)
    | Pending => Run Pending (world_after d) (announce ++ events d)
    end.
Proof.
  intros Hfind Htruthy Hty. unfold loop_iteration.
  rewrite bind_console, Hfind. cbn [lift].
  rewrite bind_ret, Htruthy. cbn [negb].
  rewrite Hty. cbn [lift].
  rewrite bind_ret. unfold log at 1. rewrite bind_console.
  fold (observe_and_report H page response cc).
  unfold bind at 1.
  destruct (handleModelAction H page (Js.prop cc "action") w)
    as [[[] | e |] w1 t1];
    cbn [outcome_of world_after events];
    [destruct (observe_and_report H page response cc w1) | |];
    reflexivity.
Qed.

Lemma in_calls_of (c : call) (r : reply) (t : list event) :
  In (EvCall c r) t -> In c (calls_of t).
Proof.
  unfold calls_of.
  induction t as [| [c' r' | lvl args] t IH]; simpl; [tauto | |].
  - intros [[= -> ->] | Hin]; [now left | right; now apply IH].
  - intros [[=] | Hin]. now apply IH.
Qed.

(** How far the second half of a pass gets is up to the host; what it sends
    is not. *)
Lemma observe_and_report_cases (page response cc : jsval) (w : world H) :
  let settle := PageWaitForTimeout page (JNum 750) in
  let capture := PageScreenshot page true in
  let r := observe_and_report H page response cc w in
  (exists e, outcome_of r = Thrown e /\ calls_of (events r) = [settle])
  \/ (exists e, outcome_of r = Thrown e
                /\ calls_of (events r) = [settle; capture])
  \/ (exists buffer,
        calls_of (events r)
        = [settle; capture;
           ResponsesCreate
             (next_request (Js.prop response "id") (Js.prop cc "call_id")
                (Js.coalesce (Js.prop cc "pending_safety_checks")
                             (JArr []))
                (base64 H buffer))]
        /\ ((exists e, outcome_of r = Thrown e)
            \/ (exists response',
                  outcome_of r = Returned (Continue response')))).
Proof.
  intros settle capture r. subst r settle capture.
  unfold observe_and_report, captureScreenshot, bind, log, console, ret,
    await.
  destruct (exec H (PageWaitForTimeout page (JNum 750)) w)
    as [[v1 | e1] w1]; cbn; [| left; eauto].
  destruct (exec H (PageScreenshot page true) w1)
    as [[buffer | e2] w2]; cbn; [| right; left; eauto].
  right; right. exists buffer.
  destruct (exec H _ w2) as [[response' | e3] w3]; cbn; eauto.
Qed.

(** When the host fulfils the settle delay and the screenshot, the pass
    sends the follow-up request. *)
Lemma observe_and_report_sends (page response cc : jsval) (w : world H)
      (v : jsval) (w1 : world H) (buffer : jsval) (w2 : world H)
      (r : reply) (w3 : world H) :
  exec H (PageWaitForTimeout page (JNum 750)) w = (Fulfil v, w1) ->
  exec H (PageScreenshot page true) w1 = (Fulfil buffer, w2) ->
  exec H (ResponsesCreate
            (next_request (Js.prop response "id") (Js.prop cc "call_id")
               (Js.coalesce (Js.prop cc "pending_safety_checks") (JArr []))
               (base64 H buffer))) w2 = (r, w3) ->
  outcome_of (observe_and_report H page response cc w)
  = match r with
    | Fulfil response' => Returned (Continue response')
    | Reject e => Thrown e
    end
  /\ world_after (observe_and_report H page response cc w) = w3
  /\ interactions (events (observe_and_report H page response cc w))
     = [(PageWaitForTimeout page (JNum 750), Fulfil v);
        (PageScreenshot page true, Fulfil buffer);
        (ResponsesCreate
           (next_request (Js.prop response "id") (Js.prop cc "call_id")
              (Js.coalesce (Js.prop cc "pending_safety_checks") (JArr []))
              (base64 H buffer)), r)].
Proof.
  intros Hsettle Hcapture Hsend.
  unfold observe_and_report, captureScreenshot, bind, log, console, ret,
    await.
  rewrite Hsettle. cbn. rewrite Hcapture. cbn. rewrite Hsend.
  destruct r; cbn; now repeat split.
Qed.

(** The calls of a pass that acts: those of the dispatch, then however
    much of the second half the host lets through. *)
Lemma iteration_calls (page : jsval) (step : nat) (response cc ty : jsval)
                      (w : world H) :
  output_find response = Some cc -> Js.truthy cc = true ->
  Js.member (Js.prop cc "action") "type" = Some ty ->
  let d := handleModelAction H page (Js.prop cc "action") w in
  interactions (events (loop_iteration H page step response w))
  = (interactions (events d)
     ++ match outcome_of d with
        | Returned _ =>
            interactions
              (events (observe_and_report H page response cc
                         (world_after d)))
        | _ => []
        end)%list.
Proof.
  intros Hfind Htruthy Hty d.
  rewrite (iteration_acts page step response cc ty w Hfind Htruthy Hty).
  cbv zeta. fold d.
  destruct (outcome_of d); cbn; rewrite ?interactions_app, ?app_nil_r;
    reflexivity.
Qed.

Lemma dispatch_never_requests (page action : jsval) (w : world H)
                              (c : call) :
  In c (calls_of (events (handleModelAction H page action w))) ->
  is_dispatch_call c = true.
Proof.
  intros Hin.
  pose proof (dispatch_calls_only page action w) as Hall.
  rewrite Forall_forall in Hall. now apply Hall.
Qed.

(** The follow-up request of a pass, if the pass sends any. *)
Lemma iteration_request (page : jsval) (step : nat)
      (response cc ty : jsval) (w : world H) (payload : jsval) :
  output_find response = Some cc -> Js.truthy cc = true ->
  Js.member (Js.prop cc "action") "type" = Some ty ->
  In (ResponsesCreate payload)
     (calls_of (events (loop_iteration H page step response w))) ->
  exists buffer,
    payload
    = next_request (Js.prop response "id") (Js.prop cc "call_id")
        (Js.coalesce (Js.prop cc "pending_safety_checks") (JArr []))
        (base64 H buffer)
    /\ calls_of (events (loop_iteration H page step response w))
       = (calls_of (events (handleModelAction H page
                              (Js.prop cc "action") w))
          ++ [PageWaitForTimeout page (JNum 750);
              PageScreenshot page true;
              ResponsesCreate payload])%list.
Proof.
  intros Hfind Htruthy Hty Hin.
  unfold calls_of in *.
  rewrite (iteration_calls page step response cc ty w Hfind Htruthy Hty)
    in *.
  cbv zeta in *. rewrite map_app in *.
  apply in_app_or in Hin as [Hin | Hin].
  { apply (dispatch_never_requests page _ w) in Hin. discriminate. }
  destruct (outcome_of (handleModelAction H page (Js.prop cc "action") w));
    try contradiction.
  destruct (observe_and_report_cases page response cc
              (world_after
                 (handleModelAction H page (Js.prop cc "action") w)))
    as [[e [_ Hc]] | [[e [_ Hc]] | [buffer [Hc _]]]];
    unfold calls_of in Hc; rewrite Hc in *; simpl in Hin.
  - destruct Hin as [[=] | []].
  - destruct Hin as [[=] | [[=] | []]].
  - destruct Hin as [[=] | [[=] | [[= <-] | []]]].
    exists buffer. split; reflexivity.
Qed.

(** C3.  Whatever follow-up request a pass of the loop sends, its
    [acknowledged_safety_checks] field is the [pending_safety_checks] of
    the computer call just processed, passed through as it is: the same
    tokens when there are some, the empty list when the field is
    absent. *)
Theorem safety_checks_echoed
        (page : jsval) (step : nat) (response cc ty : jsval)
        (w : world H) (payload : jsval) (r : reply) :
  well_formed response = true ->
  find is_computer_call (output_items response) = Some cc ->
  Js.member (Js.prop cc "action") "type" = Some ty ->
  In (EvCall (ResponsesCreate payload) r)
     (events (loop_iteration H page step response w)) ->
  (forall tokens,
      Js.prop cc "pending_safety_checks" = JArr tokens ->
      acknowledged payload = JArr tokens)
  /\ (Js.nullish (Js.prop cc "pending_safety_checks") = true ->
      acknowledged payload = JArr [])
  /\ acknowledged payload
     = Js.coalesce (Js.prop cc "pending_safety_checks") (JArr []).
Proof.
  intros Hwf Hf Hty Hin.
  pose proof (output_find_spec response Hwf) as Hfind.
  rewrite Hf in Hfind.
  apply find_some in Hf as [_ Hcc].
  pose proof (computer_call_truthy cc Hcc) as Htruthy.
  apply in_calls_of in Hin.
  destruct (iteration_request page step response cc ty w payload
              Hfind Htruthy Hty Hin) as [buffer [-> _]].
  unfold acknowledged. cbn.
  repeat split.
  - intros tokens ->. reflexivity.
  - unfold Js.coalesce. now intros ->.
Qed.

Lemma dispatch_takes_no_screenshot (page action : jsval) (w : world H) :
  filter is_screenshot
         (calls_of (events (handleModelAction H page action w))) = [].
Proof.
  pose proof (dispatch_calls_only page action w) as Hall.
  induction Hall as [| c l Hc _ IH]; simpl; [reflexivity |].
  destruct c; simpl in *; try discriminate; exact IH.
Qed.

(** C8.  A [screenshot] action reaches no Browser Session primitive;
    and whatever the action, a pass that sends the next request has, after
    the calls of the dispatch, waited 750 ms and captured exactly one
    full-page screenshot before sending. *)
Theorem screenshot_after_every_action (page : jsval) (w : world H) :
  (forall j,
      Js.prop j "type" = JStr "screenshot" ->
      outcome_of (handleModelAction H page j w) = Returned tt
      /\ calls_of (events (handleModelAction H page j w)) = [])
  /\ (forall step response cc ty payload,
         well_formed response = true ->
         find is_computer_call (output_items response) = Some cc ->
         Js.member (Js.prop cc "action") "type" = Some ty ->
         In (ResponsesCreate payload)
            (calls_of (events (loop_iteration H page step response w))) ->
         calls_of (events (loop_iteration H page step response w))
         = (calls_of (events (handleModelAction H page
                                (Js.prop cc "action") w))
            ++ [PageWaitForTimeout page (JNum 750);
                PageScreenshot page true;
                ResponsesCreate payload])%list
         /\ filter is_screenshot
              (calls_of (events (loop_iteration H page step response w)))
            = [PageScreenshot page true]).
Proof.
  split.
  - intros j Hty.
    destruct (screenshot_request_noop page j w Hty) as [Ho [_ Hi]].
    unfold calls_of. now rewrite Hi.
  - intros step response cc ty payload Hwf Hf Hty Hin.
    pose proof (output_find_spec response Hwf) as Hfind.
    rewrite Hf in Hfind.
    apply find_some in Hf as [_ Hcc].
    pose proof (computer_call_truthy cc Hcc) as Htruthy.
    destruct (iteration_request page step response cc ty w payload
                Hfind Htruthy Hty Hin) as [buffer [_ Hcalls]].
    split; [exact Hcalls |].
    rewrite Hcalls, filter_app, dispatch_takes_no_screenshot.
    reflexivity.
Qed.

(** A navigation without a usable target: one warning, no call. *)
Lemma invalid_target_noop (page action : jsval) (kind : string)
                          (w : world H) :
  Js.prop action "type" = JStr kind -> In kind navigation_kinds ->
  Js.is_string (Js.prop action "url") = false ->
  handleModelAction H page action w
  = Run (Returned tt) w
        [EvConsole LogLevel
           [JStr "[LLMService]"; JStr "handleModelAction invoked";
            JStr kind; action];
         EvConsole LogLevel
           [JStr "[LLMService]"; JStr "navigate";
            JObj [("url", Js.prop action "url");
                  ("wait_until",
                   Js.default (Js.prop action "wait_until")
                              (JStr "load"))]];
         EvConsole WarnLevel
           [JStr ("Missing or invalid URL in navigate action: "
                  ++ JSON_stringify H action)]].
Proof.
  intros Hty Hk Hurl.
  pose proof (member_of_prop action _ _ Hty ltac:(discriminate)) as Hm.
  unfold handleModelAction. rewrite Hm.
  unfold bind at 1, lift at 1, ret at 1.
  cbn [outcome_of world_after events app].
  rewrite (navigation_kind_arm _ Hk), Hurl, orb_true_r.
  reflexivity.
Qed.

(** A navigation the browser rejects: the rejection is caught and
    reported on the console. *)
Lemma failed_navigation_absorbed (page action : jsval) (kind u : string)
      (reason : jsval) (w w' : world H) :
  Js.prop action "type" = JStr kind -> In kind navigation_kinds ->
  Js.prop action "url" = JStr u -> u <> EmptyString ->
  exec H (PageGoto page (JStr u)
            (Js.default (Js.prop action "wait_until") (JStr "load"))) w
  = (Reject reason, w') ->
  handleModelAction H page action w
  = Run (Returned tt) w'
        [EvConsole LogLevel
           [JStr "[LLMService]"; JStr "handleModelAction invoked";
            JStr kind; action];
         EvConsole LogLevel
           [JStr "[LLMService]"; JStr "navigate";
            JObj [("url", JStr u);
                  ("wait_until",
                   Js.default (Js.prop action "wait_until")
                              (JStr "load"))]];
         EvCall (PageGoto page (JStr u)
                   (Js.default (Js.prop action "wait_until")
                               (JStr "load")))
                (Reject reason);
         EvConsole ErrorLevel
           [JStr ("Failed to navigate to " ++ u ++ ":"); reason]].
Proof.
  intros Hty Hk Hurl Hne Hexec.
  pose proof (member_of_prop action _ _ Hty ltac:(discriminate)) as Hm.
  unfold handleModelAction. rewrite Hm.
  unfold bind at 1, lift at 1, ret at 1.
  cbn [outcome_of world_after events app].
  rewrite (navigation_kind_arm _ Hk), Hurl, (nonempty_truthy _ Hne).
  unfold bind, try_catch, await, log, console, lift, ret. cbn.
  rewrite Hexec. reflexivity.
Qed.

(** C4.  An action whose kind is none of the vocabulary and has a string
    form (another string, a missing [type], a number, ...), a navigation
    whose [url] is missing or not a string, and a navigation the browser
    rejects are all absorbed: [handleModelAction] reports on the console
    and returns normally, and the pass goes on to wait, capture a screenshot
    and send the next request. *)
Theorem recoverable_failures_absorbed
        (page action : jsval) (w : world H) :
  recoverable H page action w ->
  outcome_of (handleModelAction H page action w) = Returned tt
  /\ (exists lvl args,
         lvl <> LogLevel
         /\ In (EvConsole lvl args)
               (events (handleModelAction H page action w)))
  /\ (forall step response cc v w1 buffer w2 r w3,
         well_formed response = true ->
         find is_computer_call (output_items response) = Some cc ->
         Js.prop cc "action" = action ->
         exec H (PageWaitForTimeout page (JNum 750))
              (world_after (handleModelAction H page action w))
         = (Fulfil v, w1) ->
         exec H (PageScreenshot page true) w1 = (Fulfil buffer, w2) ->
         exec H (ResponsesCreate
                   (next_request (Js.prop response "id")
                      (Js.prop cc "call_id")
                      (Js.coalesce (Js.prop cc "pending_safety_checks")
                                   (JArr []))
                      (base64 H buffer))) w2 = (r, w3) ->
         calls_of (events (loop_iteration H page step response w))
         = (calls_of (events (handleModelAction H page action w))
            ++ [PageWaitForTimeout page (JNum 750);
                PageScreenshot page true;
                ResponsesCreate
                  (next_request (Js.prop response "id")
                     (Js.prop cc "call_id")
                     (Js.coalesce (Js.prop cc "pending_safety_checks")
                                  (JArr []))
                     (base64 H buffer))])%list
         /\ outcome_of (loop_iteration H page step response w)
            = match r with
              | Fulfil response' => Returned (Continue response')
              | Reject e => Thrown e
              end).
Proof.
  intros Hrec.
  assert (Hkind : exists ty, Js.member action "type" = Some ty).
  { destruct Hrec as [shown Hnn _ _ | kind Hty _ _ | kind reason w' Hty _ _ _].
    - unfold Js.member. rewrite Hnn. eauto.
    - exists (JStr kind). now apply member_of_prop.
    - exists (JStr kind). now apply member_of_prop. }
  assert (Hret : outcome_of (handleModelAction H page action w)
                 = Returned tt
                 /\ exists lvl args,
                     lvl <> LogLevel
                     /\ In (EvConsole lvl args)
                           (events (handleModelAction H page action w))).
  { destruct Hrec as [shown Hnn Hout Hshown | kind Hty Hk Hurl
                     | kind reason w' Hty Hk Hvalid Hexec].
    - rewrite (unknown_kind_noop page action shown w Hnn Hout Hshown). cbn.
      split; [reflexivity |].
      exists WarnLevel. eexists. split; [discriminate |].
      right; left; reflexivity.
    - rewrite (invalid_target_noop page action kind w Hty Hk Hurl). cbn.
      split; [reflexivity |].
      exists WarnLevel. eexists. split; [discriminate |].
      right; right; left; reflexivity.
    - destruct (valid_url_string _ Hvalid) as [u [Hu Hne]].
      rewrite Hu in Hexec.
      rewrite (failed_navigation_absorbed page action kind u reason w w'
                 Hty Hk Hu Hne Hexec). cbn.
      split; [reflexivity |].
      exists ErrorLevel. eexists. split; [discriminate |].
      right; right; right; left; reflexivity. }
  destruct Hret as [Hret Hlogged].
  split; [exact Hret | split; [exact Hlogged |]].
  intros step response cc v w1 buffer w2 r w3
         Hwf Hf Haction Hsettle Hcapture Hsend.
  destruct Hkind as [ty Hm]. subst action.
  pose proof (output_find_spec response Hwf) as Hfind.
  rewrite Hf in Hfind.
  apply find_some in Hf as [_ Hcc].
  pose proof (computer_call_truthy cc Hcc) as Htruthy.
  destruct (observe_and_report_sends page response cc _ v w1 buffer w2
              r w3 Hsettle Hcapture Hsend) as [Ho [_ Hi]].
  split.
  - unfold calls_of.
    rewrite (iteration_calls page step response cc _ w Hfind Htruthy Hm).
    cbv zeta. rewrite Hret, Hi, map_app. reflexivity.
  - rewrite (iteration_acts page step response cc _ w Hfind Htruthy Hm).
    cbv zeta. rewrite Hret. cbn. exact Ho.
Qed.

(** *** Whole runs *)

Lemma events_try_finally {A} (body : M H A) (cleanup : M H unit)
                         (w : world H) :
  events (try_finally H body cleanup w)
  = (events (body w)
     ++ match outcome_of (body w) with
        | Pending => []
        | _ => events (cleanup (world_after (body w)))
        end)%list.
Proof.
  unfold try_finally.
  destruct (body w) as [[a | e |] w1 t1]; cbn; rewrite ?app_nil_r;
    try reflexivity;
    now destruct (cleanup w1) as [[u | e' |] w2 t2].
Qed.

Lemma outcome_try_finally {A} (body : M H A) (cleanup : M H unit)
                          (w : world H) :
  outcome_of (try_finally H body cleanup w)
  = match outcome_of (body w) with
    | Pending => Pending
    | o =>
        match outcome_of (cleanup (world_after (body w))) with
        | Returned _ => o
        | Thrown e => Thrown e
        | Pending => Pending
        end
    end.
Proof.
  unfold try_finally.
  destruct (body w) as [[a | e |] w1 t1]; cbn; try reflexivity;
    now destruct (cleanup w1) as [[u | e' |] w2 t2].
Qed.

Lemma events_of_calls (P : call -> Prop) (t : list event) :
  Forall P (calls_of t) ->
  Forall (fun e => match e with EvCall c _ => P c | _ => True end) t.
Proof.
  unfold calls_of.
  induction t as [| [c r | lvl args] t IH]; simpl; intros Hall.
  - constructor.
  - inversion Hall; subst. constructor; auto.
  - constructor; auto.
Qed.

Ltac classify_events :=
  repeat first
    [ apply Forall_nil
    | apply Forall_cons
    | apply le_console
    | apply le_screenshot
    | apply le_request
    | apply le_dispatch; reflexivity
    | apply re_launch
    | apply re_new_page
    | apply re_viewport
    | apply re_first
    | apply re_close
    | apply re_loop ].

Lemma dispatch_events (page action : jsval) (w : world H) :
  Forall loop_event (events (handleModelAction H page action w)).
Proof.
  pose proof (events_of_calls _ _ (dispatch_calls_only page action w))
    as Hall.
  eapply Forall_impl; [| exact Hall].
  intros [c r | lvl args] Hc; [now apply le_dispatch | apply le_console].
Qed.

Lemma observe_events (page response cc : jsval) (w : world H) :
  Forall loop_event (events (observe_and_report H page response cc w)).
Proof.
  unfold observe_and_report, captureScreenshot, bind, log, console, ret,
    await.
  destruct (exec H (PageWaitForTimeout page (JNum 750)) w)
    as [[v1 | e1] w1]; cbn;
    [| classify_events].
  destruct (exec H (PageScreenshot page true) w1)
    as [[buffer | e2] w2]; cbn;
    [| classify_events].
  destruct (exec H _ w2) as [[response' | e3] w3]; cbn;
    classify_events.
Qed.

Lemma iteration_events (page : jsval) (step : nat) (response : jsval)
                       (w : world H) :
  Forall loop_event (events (loop_iteration H page step response w)).
Proof.
  destruct (output_find response) as [cc |] eqn:Hfind.
  2: { rewrite (iteration_unreadable_output page step response w Hfind).
       classify_events. }
  destruct (Js.truthy cc) eqn:Htruthy.
  2: { rewrite (iteration_finishes page step response cc w Hfind Htruthy).
       classify_events. }
  destruct (Js.member (Js.prop cc "action") "type") as [ty |] eqn:Hty.
  2: { rewrite (iteration_unreadable_action page step response cc w
                  Hfind Htruthy Hty).
       classify_events. }
  rewrite (iteration_acts page step response cc ty w Hfind Htruthy Hty).
  cbv zeta.
  destruct (outcome_of (handleModelAction H page _ w)); cbn [events];
    repeat (apply Forall_app; split);
    try apply dispatch_events; try apply observe_events;
    classify_events.
Qed.

Lemma agent_loop_events (fuel : nat) (page : jsval) (step : nat)
                        (response : jsval) (w : world H) :
  Forall loop_event (events (agent_loop H fuel page step response w)).
Proof.
  revert step response w.
  induction fuel as [| fuel IH]; intros step response w; simpl.
  - constructor.
  - rewrite events_bind. apply Forall_app. split.
    + apply iteration_events.
    + destruct (outcome_of _) as [[text | response'] | |];
        [constructor | apply IH | constructor | constructor].
Qed.

Lemma launch_events (w : world H) :
  Forall run_event (events (launchSandboxedBrowser H w)).
Proof.
  unfold launchSandboxedBrowser, bind, log, console, ret, await.
  destruct (exec H (ChromiumLaunch launch_options) w)
    as [[browser | e1] w1]; cbn;
    [| classify_events].
  destruct (exec H (BrowserNewPage browser) w1) as [[page | e2] w2]; cbn;
    [| classify_events].
  destruct (exec H _ w2) as [[v | e3] w3]; cbn; classify_events.
Qed.

Lemma run_events (fuel : nat) (prompt : string) (w : world H) :
  Forall run_event (events (runComputerUseAgent H fuel prompt w)).
Proof.
  unfold runComputerUseAgent.
  rewrite events_bind. apply Forall_app. split;
    [classify_events |].
  cbn [log console outcome_of world_after].
  rewrite events_bind. apply Forall_app. split;
    [apply launch_events |].
  destruct (outcome_of (launchSandboxedBrowser H w))
    as [[browser page] | |]; try constructor.
  rewrite events_try_finally. apply Forall_app. split.
  - rewrite events_bind. apply Forall_app. split.
    + unfold await. destruct (exec H _ _) as [r w']. cbn.
      classify_events.
    + destruct (outcome_of _); try constructor.
      eapply Forall_impl; [| apply agent_loop_events].
      intros e He. now apply re_loop.
  - assert (Hclose :
              forall w',
                Forall run_event
                  (events ((await H (BrowserClose browser) ;; ret H tt)
                             w'))).
    { intros w'. unfold bind, await, ret.
      destruct (exec H _ w') as [[v | e] w'']; cbn; classify_events. }
    destruct (outcome_of _); try constructor; apply Hclose.
Qed.

Lemma run_event_viewport (e : event) : run_event e -> viewport_ok e.
Proof.
  intros [e' [lvl args | c r Hc | page r | id call_id ack shot r]
         | r | browser r | page r | prompt r | browser r];
    try exact I; try reflexivity.
  destruct c; try exact I; discriminate.
Qed.

Lemma loop_event_not_close (t : list event) :
  Forall loop_event t -> filter is_close (calls_of t) = [].
Proof.
  unfold calls_of.
  induction 1 as [| e t He _ IH]; [reflexivity |].
  destruct He as [lvl args | c r Hc | page r | id call_id ack shot r];
    cbn; try exact IH.
  destruct c; try discriminate; exact IH.
Qed.

Lemma launch_closes_nothing (w : world H) :
  filter is_close (calls_of (events (launchSandboxedBrowser H w))) = [].
Proof.
  unfold launchSandboxedBrowser, bind, log, console, ret, await.
  destruct (exec H (ChromiumLaunch launch_options) w)
    as [[browser | e1] w1]; cbn; [| reflexivity].
  destruct (exec H (BrowserNewPage browser) w1) as [[page | e2] w2]; cbn;
    [| reflexivity].
  destruct (exec H _ w2) as [[v | e3] w3]; cbn; reflexivity.
Qed.

(** Once the session is open, a run that has ended closed the browser
    exactly once, as its last call. *)
Lemma session_closed_once (fuel : nat) (prompt : string) (w : world H)
                          (browser page : jsval) :
  outcome_of (launchSandboxedBrowser H w) = Returned (browser, page) ->
  outcome_of (runComputerUseAgent H fuel prompt w) <> Pending ->
  exists before,
    calls_of (events (runComputerUseAgent H fuel prompt w))
    = (before ++ [BrowserClose browser])%list
    /\ filter is_close before = [].
Proof.
  intros Hopen Hended.
  pose proof (launch_closes_nothing w) as Hlaunch.
  set (body := bind H (await H (ResponsesCreate (first_request prompt)))
                 (fun response => agent_loop H fuel page 0 response)).
  set (cleanup := bind H (await H (BrowserClose browser))
                    (fun _ => ret H tt)).
  set (w1 := world_after (launchSandboxedBrowser H w)).
  assert (Hbody : filter is_close (calls_of (events (body w1))) = []).
  { subst body.
    rewrite events_bind, calls_of_app, filter_app, events_await. cbn.
    destruct (outcome_of
                (await H (ResponsesCreate (first_request prompt)) w1));
      try reflexivity.
    apply loop_event_not_close, agent_loop_events. }
  assert (Hcleanup :
            forall w', calls_of (events (cleanup w'))
                       = [BrowserClose browser]).
  { intros w'. subst cleanup.
    rewrite events_bind, events_await, calls_of_app. cbn.
    now destruct (outcome_of (await H (BrowserClose browser) w')). }
  assert (Hrun_events :
            calls_of (events (runComputerUseAgent H fuel prompt w))
            = (calls_of (events (launchSandboxedBrowser H w))
               ++ calls_of (events (try_finally H body cleanup w1)))%list).
  { unfold runComputerUseAgent, log.
    rewrite bind_console, events_prefixed, events_bind, Hopen.
    rewrite !calls_of_app. reflexivity. }
  assert (Hrun_outcome :
            outcome_of (runComputerUseAgent H fuel prompt w)
            = outcome_of (try_finally H body cleanup w1)).
  { unfold runComputerUseAgent, log.
    now rewrite bind_console, outcome_prefixed, outcome_bind, Hopen. }
  rewrite Hrun_outcome, outcome_try_finally in Hended.
  rewrite Hrun_events, events_try_finally, calls_of_app.
  exists (calls_of (events (launchSandboxedBrowser H w))
          ++ calls_of (events (body w1)))%list.
  split.
  - destruct (outcome_of (body w1));
      [| | exfalso; now apply Hended];
      now rewrite Hcleanup, app_assoc.
  - now rewrite filter_app, Hlaunch, Hbody.
Qed.

(** A session that fails to open ends the run then and there: the [try]
    block is never entered. *)
Lemma run_when_open_fails (fuel : nat) (prompt : string) (w w' : world H)
                          (reason : jsval) (t : list event) :
  launchSandboxedBrowser H w = Run (Thrown reason) w' t ->
  runComputerUseAgent H fuel prompt w
  = Run (Thrown reason) w'
        (EvConsole LogLevel
           [JStr "[LLMService]"; JStr "runComputerUseAgent started";
            JStr prompt] :: t).
Proof.
  intros Hopen. unfold runComputerUseAgent, log. rewrite bind_console.
  unfold bind at 1. rewrite Hopen. reflexivity.
Qed.

(** The same happens when the page exists but its viewport cannot be set. *)
Lemma browser_left_open_when_viewport_fails
      (fuel : nat) (prompt : string) (w : world H)
      (browser : jsval) (w1 : world H) (page : jsval) (w2 : world H)
      (reason : jsval) (w3 : world H) :
  exec H (ChromiumLaunch launch_options) w = (Fulfil browser, w1) ->
  exec H (BrowserNewPage browser) w1 = (Fulfil page, w2) ->
  exec H (PageSetViewportSize page 1024 768) w2 = (Reject reason, w3) ->
  outcome_of (runComputerUseAgent H fuel prompt w) = Thrown reason
  /\ calls_of (events (runComputerUseAgent H fuel prompt w))
     = [ChromiumLaunch launch_options; BrowserNewPage browser;
        PageSetViewportSize page 1024 768].
Proof.
  intros Hlaunch Hpage Hview.
  assert (Hopen : launchSandboxedBrowser H w
                  = Run (Thrown reason) w3
                        [EvCall (ChromiumLaunch launch_options)
                                (Fulfil browser);
                         EvCall (BrowserNewPage browser) (Fulfil page);
                         EvCall (PageSetViewportSize page 1024 768)
                                (Reject reason)]).
  { unfold launchSandboxedBrowser, bind, await.
    rewrite Hlaunch. cbn. rewrite Hpage. cbn. rewrite Hview. reflexivity. }
  rewrite (run_when_open_fails fuel prompt w w3 reason _ Hopen). now split.
Qed.

(** When the browser cannot even be launched there is nothing to close. *)
Lemma nothing_to_close_when_launch_fails
      (fuel : nat) (prompt : string) (w : world H)
      (reason : jsval) (w1 : world H) :
  exec H (ChromiumLaunch launch_options) w = (Reject reason, w1) ->
  outcome_of (runComputerUseAgent H fuel prompt w) = Thrown reason
  /\ calls_of (events (runComputerUseAgent H fuel prompt w))
     = [ChromiumLaunch launch_options].
Proof.
  intros Hlaunch.
  assert (Hopen : launchSandboxedBrowser H w
                  = Run (Thrown reason) w1
                        [EvCall (ChromiumLaunch launch_options)
                                (Reject reason)]).
  { unfold launchSandboxedBrowser, bind, await.
    rewrite Hlaunch. reflexivity. }
  rewrite (run_when_open_fails fuel prompt w w1 reason _ Hopen). now split.
Qed.

(** C2.  The browser is not released on every exit path: when
    [chromium.launch] has succeeded and [browser.newPage] then rejects,
    the rejection reaches the caller and [browser.close] has not been
    called.  ([session_closed_once] covers the paths on which the
    session opens.) *)
Theorem browser_left_open_when_page_fails
        (fuel : nat) (prompt : string) (w : world H)
        (browser : jsval) (w1 : world H) (reason : jsval) (w2 : world H) :
  exec H (ChromiumLaunch launch_options) w = (Fulfil browser, w1) ->
  exec H (BrowserNewPage browser) w1 = (Reject reason, w2) ->
  outcome_of (runComputerUseAgent H fuel prompt w) = Thrown reason
  /\ calls_of (events (runComputerUseAgent H fuel prompt w))
     = [ChromiumLaunch launch_options; BrowserNewPage browser]
  /\ filter is_close
       (calls_of (events (runComputerUseAgent H fuel prompt w))) = [].
Proof.
  intros Hlaunch Hpage.
  assert (Hopen : launchSandboxedBrowser H w
                  = Run (Thrown reason) w2
                        [EvCall (ChromiumLaunch launch_options)
                                (Fulfil browser);
                         EvCall (BrowserNewPage browser) (Reject reason)]).
  { unfold launchSandboxedBrowser, bind, await.
    rewrite Hlaunch. cbn. rewrite Hpage. reflexivity. }
  rewrite (run_when_open_fails fuel prompt w w2 reason _ Hopen).
  now repeat split.
Qed.

(* ================================================================== *)
(** ** Further properties of the service *)

(** *** How the dispatcher fails *)

Lemma outcome_await (c : call) (w : world H) :
  outcome_of (await H c w)
  = match fst (exec H c w) with
    | Fulfil v => Returned v
    | Reject e => Thrown e
    end.
Proof. unfold await. now destruct (exec H c w) as [[v | e] w']. Qed.

Lemma in_interactions_calls (c : call) (r : reply) (t : list event) :
  In (c, r) (interactions t) -> In c (calls_of t).
Proof.
  unfold calls_of. intros Hin.
  change c with (fst (c, r)). now apply in_map.
Qed.

Lemma filter_nil_not_in (f : call -> bool) (l : list call) (c : call) :
  filter f l = [] -> f c = true -> ~ In c l.
Proof.
  intros Hnil Hf Hin.
  assert (Hc : In c (filter f l)) by (apply filter_In; now split).
  rewrite Hnil in Hc. exact Hc.
Qed.

(** The keys of a key-press action are pressed in order, each press
    awaited before the next, until one press is rejected. *)
Lemma press_each_trace (page : jsval) (keys : list jsval) (w : world H) :
  exists done : list (jsval * jsval),
    (outcome_of (press_each H page keys w) = Returned tt
     /\ map fst done = keys
     /\ interactions (events (press_each H page keys w))
        = map (pressed page) done)
    \/ (exists key rest e,
           keys = (map fst done ++ key :: rest)%list
           /\ interactions (events (press_each H page keys w))
              = (map (pressed page) done
                 ++ [(KeyboardPress page key, Reject e)])%list
           /\ outcome_of (press_each H page keys w) = Thrown e).
Proof.
  revert w. induction keys as [| key keys IH]; intros w.
  - exists []. left. now repeat split.
  - cbn [press_each]. unfold bind, await.
    destruct (exec H (KeyboardPress page key) w) as [[v | e] w1]; cbn.
    + destruct (IH w1) as [done [[Hret [Hkeys Hcalls]]
                               | [k [rest [e [Hkeys [Hcalls Hthrown]]]]]]];
        exists ((key, v) :: done);
        rewrite events_prefixed, outcome_prefixed, interactions_app; cbn.
      * left. rewrite Hcalls. subst keys. now repeat split.
      * right. exists k, rest, e. rewrite Hcalls. subst keys.
        now repeat split.
    + exists []. right. exists key, keys, e. now repeat split.
Qed.

Lemma press_each_rejection (page : jsval) (keys : list jsval) (w : world H)
      (before : list (call * reply)) (c : call) (e : jsval)
      (after : list (call * reply)) :
  interactions (events (press_each H page keys w))
  = (before ++ (c, Reject e) :: after)%list ->
  after = []
  /\ is_goto c = false
  /\ outcome_of (press_each H page keys w) = Thrown e.
Proof.
  revert w before. induction keys as [| key keys IH]; intros w before.
  - cbn. intros Heq. destruct before; discriminate.
  - cbn [press_each]. unfold bind, await.
    destruct (exec H (KeyboardPress page key) w) as [[v | e'] w1]; cbn.
    + rewrite events_prefixed, outcome_prefixed, interactions_app. cbn.
      intros Heq. destruct before as [| b before]; cbn in Heq.
      * discriminate.
      * injection Heq as _ Heq. exact (IH w1 before Heq).
    + intros Heq. destruct before as [| b [| b' before]]; cbn in Heq.
      * injection Heq as <- <- <-. now repeat split.
      * discriminate.
      * discriminate.
Qed.

(** Solve a goal about where a rejected call sits in a short, explicit
    list of interactions. *)
Ltac place_rejection :=
  let Heq := fresh "Heq" in
  intros Heq;
  match type of Heq with
  | _ = (?before ++ _)%list =>
      destruct before as [| ? [| ? [| ? ?]]]; cbn in Heq;
      try discriminate;
      inversion Heq; subst; cbn; now repeat split
  end.

(** X4.  [handleModelAction] stops at the first call the page rejects: a
    rejected call is the last call of the dispatch, and its reason is thrown
    to the caller unless the call is the guarded [page.goto], in which case
    the dispatch returns normally. *)
Theorem dispatch_stops_at_rejection
        (page action : jsval) (w : world H)
        (before : list (call * reply)) (c : call) (e : jsval)
        (after : list (call * reply)) :
  interactions (events (handleModelAction H page action w))
  = (before ++ (c, Reject e) :: after)%list ->
  after = []
  /\ (if is_goto c
      then outcome_of (handleModelAction H page action w) = Returned tt
      else outcome_of (handleModelAction H page action w) = Thrown e).
Proof.
  unfold handleModelAction.
  destruct (Js.member action "type") as [ty |];
    [| cbn; intros Heq; destruct before; discriminate].
  cbn [lift]. rewrite bind_ret. unfold log. rewrite bind_console.
  rewrite events_prefixed, outcome_prefixed. cbn [app interactions].
  destruct (switch_arm ty).
  5: { rewrite bind_console, events_prefixed, outcome_prefixed.
       cbn [app interactions].
       destruct (Js.iterate (Js.prop action "keys")) as [keys |];
         cbn [lift].
       - rewrite bind_ret. intros Heq.
         destruct (press_each_rejection page keys w before c e after Heq)
           as [Hafter [Hgoto Hout]].
         now rewrite Hgoto.
       - cbn. intros Heq. destruct before; discriminate. }
  6: { rewrite bind_console, events_prefixed, outcome_prefixed.
       cbn [app interactions].
       destruct (Js.prop action "url") as [| | b | n | u | l | fs];
         cbn [Js.truthy Js.is_string negb orb];
         rewrite ?orb_true_r;
         try (cbn; intros Heq; destruct before; discriminate).
       destruct (negb (String.eqb u EmptyString)); cbn [negb orb];
         [| cbn; intros Heq; destruct before; discriminate].
       unfold try_catch, bind, await, console, lift, ret, throw.
       destruct (exec H _ w) as [[v | e'] w1]; cbn; place_rejection. }
  7: { destruct (Js.to_string ty); cbn;
       intros Heq; destruct before; discriminate. }
  all: unfold bind, console, ret, await;
    repeat (cbn; try host_step); place_rejection.
Qed.

(** X5.  When the dispatch of an action throws, the pass throws the same
    value and does nothing more: no settle delay, no screenshot, no request
    to the model; the loop throws it too. *)
Theorem failed_dispatch_aborts_pass
        (page : jsval) (response cc ty : jsval) (w : world H) (e : jsval) :
  well_formed response = true ->
  find is_computer_call (output_items response) = Some cc ->
  Js.member (Js.prop cc "action") "type" = Some ty ->
  outcome_of (handleModelAction H page (Js.prop cc "action") w) = Thrown e ->
  (forall step,
      outcome_of (loop_iteration H page step response w) = Thrown e
      /\ interactions (events (loop_iteration H page step response w))
         = interactions
             (events (handleModelAction H page (Js.prop cc "action") w)))
  /\ (forall fuel passes,
         outcome_of (agent_loop H (S fuel) page passes response w)
         = Thrown e).
Proof.
  intros Hwf Hf Hty Hthrown.
  pose proof (output_find_spec response Hwf) as Hfind.
  rewrite Hf in Hfind.
  apply find_some in Hf as [_ Hcc].
  pose proof (computer_call_truthy cc Hcc) as Htruthy.
  assert (Hpass : forall step,
             outcome_of (loop_iteration H page step response w) = Thrown e
             /\ interactions
                  (events (loop_iteration H page step response w))
                = interactions
                    (events (handleModelAction H page
                               (Js.prop cc "action") w))).
  { intros step.
    rewrite (iteration_acts page step response cc ty w Hfind Htruthy Hty).
    cbv zeta. rewrite Hthrown. cbn. split; reflexivity. }
  split; [exact Hpass |].
  intros fuel passes. cbn [agent_loop].
  rewrite outcome_bind. now rewrite (proj1 (Hpass (S passes))).
Qed.

(** X6.  A key-press action presses its keys in the order given, one call
    per key, each press awaited before the next.  Either every press is
    fulfilled and the dispatch returns, or the dispatch stops at the first
    press the page rejects and throws the reason of that rejection, the keys
    after it never being pressed.  [keys] may be an array or a string, which
    is pressed character by character; without an iterable [keys] the
    dispatch throws a TypeError and presses nothing. *)
Theorem keys_pressed_in_order (page j : jsval) (w : world H) :
  Js.prop j "type" = JStr "keypress" ->
  (forall keys,
      Js.iterate (Js.prop j "keys") = Some keys ->
      exists done : list (jsval * jsval),
        (outcome_of (handleModelAction H page j w) = Returned tt
         /\ map fst done = keys
         /\ interactions (events (handleModelAction H page j w))
            = map (pressed page) done)
        \/ (exists key rest e,
               keys = (map fst done ++ key :: rest)%list
               /\ interactions (events (handleModelAction H page j w))
                  = (map (pressed page) done
                     ++ [(KeyboardPress page key, Reject e)])%list
               /\ outcome_of (handleModelAction H page j w) = Thrown e))
  /\ (Js.iterate (Js.prop j "keys") = None ->
      outcome_of (handleModelAction H page j w) = Thrown type_error
      /\ calls_of (events (handleModelAction H page j w)) = []).
Proof.
  intros Hty.
  pose proof (member_of_prop j _ _ Hty ltac:(discriminate)) as Hm.
  unfold handleModelAction. rewrite Hm. cbn [lift].
  rewrite bind_ret. unfold log. rewrite !bind_console.
  cbn [switch_arm Js.is_str String.eqb Ascii.eqb Bool.eqb].
  rewrite !bind_console, !events_prefixed, !outcome_prefixed.
  split.
  - intros keys Hkeys. rewrite Hkeys. cbn [lift]. rewrite bind_ret.
    cbn [app interactions].
    exact (press_each_trace page keys w).
  - intros Hnone. rewrite Hnone. cbn. split; reflexivity.
Qed.

(** X7.  Dispatching a navigation action never throws, whatever its
    parameters and whatever the page answers, and calls nothing but
    [page.goto], at most once. *)
Theorem navigation_never_throws (page j : jsval) (k : string)
                                (w : world H) :
  In k navigation_kinds -> Js.prop j "type" = JStr k ->
  outcome_of (handleModelAction H page j w) = Returned tt
  /\ (List.length (calls_of (events (handleModelAction H page j w))) <= 1)%nat
  /\ Forall (fun c => is_goto c = true)
            (calls_of (events (handleModelAction H page j w))).
Proof.
  intros Hk Hty.
  destruct (navigation_block page j k w Hk Hty) as [Hout Hcalls].
  split; [exact Hout |]. unfold calls_of.
  destruct (valid_url (Js.prop j "url"));
    destruct Hcalls as [-> _]; cbn; split; auto.
Qed.

(** X8.  A response the loop cannot read ends the pass with a TypeError
    before anything is dispatched: no call reaches the page or the model,
    and the loop throws the TypeError. *)
Theorem malformed_response_throws
        (page : jsval) (response : jsval) (w : world H) :
  malformed response ->
  (forall step,
      loop_iteration H page step response w
      = Run (Thrown type_error) w
            [EvConsole LogLevel [JStr "response"; response]])
  /\ (forall fuel passes,
         outcome_of (agent_loop H (S fuel) page passes response w)
         = Thrown type_error
         /\ calls_of (events (agent_loop H (S fuel) page passes response w))
            = []).
Proof.
  intros Hbad.
  assert (Hpass : forall step,
             loop_iteration H page step response w
             = Run (Thrown type_error) w
                   [EvConsole LogLevel [JStr "response"; response]]).
  { intros step.
    destruct Hbad as [Hnn Hout Hnot | pre item post Hout Hpre Hnone Hitem
                     | cc Hwf Hf Haction].
    - apply iteration_unreadable_output.
      unfold output_find, Js.member, optional_array.
      rewrite Hnn, Hout.
      destruct (Js.prop response "output"); try reflexivity.
      now destruct (Hnot items).
    - apply iteration_unreadable_output.
      assert (Hnn : Js.nullish response = false)
        by (destruct response; simpl in Hout; try discriminate;
            reflexivity).
      unfold output_find, Js.member, optional_array.
      rewrite Hnn, Hout. cbn [Js.nullish].
      clear Hout. induction pre as [| p pre IH]; cbn in *.
      + unfold Js.member. now rewrite Hitem.
      + apply andb_true_iff in Hpre as [Hp Hpre].
        apply orb_false_iff in Hnone as [Hpc Hnone].
        unfold Js.member. destruct (Js.nullish p); [discriminate |].
        unfold is_computer_call in Hpc. rewrite Hpc. now apply IH.
    - pose proof (output_find_spec response Hwf) as Hfind.
      rewrite Hf in Hfind.
      apply find_some in Hf as [_ Hcc].
      apply (iteration_unreadable_action page step response cc w Hfind
               (computer_call_truthy cc Hcc)).
      unfold Js.member. now rewrite Haction. }
  split; [exact Hpass |].
  intros fuel passes. cbn [agent_loop].
  rewrite outcome_bind, events_bind, (Hpass (S passes)). cbn.
  split; reflexivity.
Qed.

(** *** What a pass reads and what it sends *)

Lemma find_first_computer_call (pre : list jsval) (cc : jsval)
                               (post : list jsval) :
  forallb (fun i => negb (Js.nullish i)) pre = true ->
  existsb is_computer_call pre = false ->
  is_computer_call cc = true ->
  find_computer_call (pre ++ cc :: post) = Some cc.
Proof.
  intros Hpre Hnone Hcc.
  induction pre as [| p pre IH]; cbn in *.
  - unfold Js.member.
    assert (Hnn : Js.nullish cc = false)
      by (destruct cc; simpl in Hcc; try discriminate; reflexivity).
    rewrite Hnn. unfold is_computer_call in Hcc. now rewrite Hcc.
  - apply andb_true_iff in Hpre as [Hp Hpre].
    apply orb_false_iff in Hnone as [Hpc Hnone].
    unfold Js.member. destruct (Js.nullish p); [discriminate |].
    unfold is_computer_call in Hpc. rewrite Hpc. now apply IH.
Qed.

(** X9.  Only the first computer call of a response counts: whatever
    follows it in [output] (further computer calls, text, even [null]) is
    never looked at, so two responses with the same [id] that agree up to
    their first computer call lead to the same calls, the same request and
    the same outcome. *)
Theorem later_items_ignored
        (page : jsval) (step : nat) (r1 r2 : jsval)
        (pre : list jsval) (cc : jsval) (post1 post2 : list jsval)
        (w : world H) :
  Js.prop r1 "output" = JArr (pre ++ cc :: post1) ->
  Js.prop r2 "output" = JArr (pre ++ cc :: post2) ->
  Js.prop r1 "id" = Js.prop r2 "id" ->
  forallb (fun i => negb (Js.nullish i)) pre = true ->
  existsb is_computer_call pre = false ->
  is_computer_call cc = true ->
  same_interaction (loop_iteration H page step r1 w)
                   (loop_iteration H page step r2 w).
Proof.
  intros Hout1 Hout2 Hid Hpre Hnone Hcc.
  assert (Hfind : forall r post,
             Js.prop r "output" = JArr (pre ++ cc :: post) ->
             output_find r = Some cc).
  { intros r post Hout.
    assert (Hnn : Js.nullish r = false)
      by (destruct r; simpl in Hout; try discriminate; reflexivity).
    unfold output_find, Js.member, optional_array.
    rewrite Hnn, Hout. cbn [Js.nullish].
    now apply find_first_computer_call. }
  pose proof (computer_call_truthy cc Hcc) as Htruthy.
  destruct (Js.member (Js.prop cc "action") "type") as [ty |] eqn:Hty.
  - rewrite (iteration_acts page step r1 cc ty w
               (Hfind r1 post1 Hout1) Htruthy Hty).
    rewrite (iteration_acts page step r2 cc ty w
               (Hfind r2 post2 Hout2) Htruthy Hty).
    cbv zeta.
    assert (Hobs : forall w',
               observe_and_report H page r1 cc w'
               = observe_and_report H page r2 cc w').
    { intros w'. unfold observe_and_report. now rewrite Hid. }
    destruct (handleModelAction H page (Js.prop cc "action") w)
      as [[[] | e |] w1 t1]; cbn [outcome_of world_after events].
    + rewrite Hobs. unfold same_interaction. cbn.
      rewrite !interactions_app. now repeat split.
    + unfold same_interaction. cbn. now repeat split.
    + unfold same_interaction. cbn. now repeat split.
  - rewrite (iteration_unreadable_action page step r1 cc w
               (Hfind r1 post1 Hout1) Htruthy Hty).
    rewrite (iteration_unreadable_action page step r2 cc w
               (Hfind r2 post2 Hout2) Htruthy Hty).
    unfold same_interaction. cbn. now repeat split.
Qed.

(** The second half of a pass, with the host's answers. *)
Lemma observe_and_report_request (page response cc : jsval) (w : world H)
                                 (payload : jsval) :
  In (ResponsesCreate payload)
     (calls_of (events (observe_and_report H page response cc w))) ->
  exists buffer,
    In (PageScreenshot page true, Fulfil buffer)
       (interactions (events (observe_and_report H page response cc w)))
    /\ payload
       = next_request (Js.prop response "id") (Js.prop cc "call_id")
           (Js.coalesce (Js.prop cc "pending_safety_checks") (JArr []))
           (base64 H buffer).
Proof.
  unfold observe_and_report, captureScreenshot, bind, log, console, ret,
    await.
  destruct (exec H (PageWaitForTimeout page (JNum 750)) w)
    as [[v1 | e1] w1]; cbn.
  2: { intros [[=] | []]. }
  destruct (exec H (PageScreenshot page true) w1)
    as [[buffer | e2] w2]; cbn.
  2: { intros [[=] | [[=] | []]]. }
  destruct (exec H _ w2) as [r w3] eqn:Hsend.
  destruct r as [response' | e3]; cbn;
    intros [[=] | [[=] | [[= <-] | []]]];
    exists buffer; split; auto.
Qed.

(** X10.  The follow-up request of a pass continues the conversation it
    belongs to: it names the response just processed as
    [previous_response_id], answers the [call_id] of the computer call that
    was executed, and carries, as a PNG data URL, the base-64 text of the
    very screenshot the page returned in this pass. *)
Theorem follow_up_links_previous_turn
        (page : jsval) (step : nat) (response cc ty : jsval)
        (w : world H) (payload : jsval) :
  well_formed response = true ->
  find is_computer_call (output_items response) = Some cc ->
  Js.member (Js.prop cc "action") "type" = Some ty ->
  In (ResponsesCreate payload)
     (calls_of (events (loop_iteration H page step response w))) ->
  Js.prop payload "previous_response_id" = Js.prop response "id"
  /\ Js.prop (Js.index0 (Js.prop payload "input")) "call_id"
     = Js.prop cc "call_id"
  /\ Js.prop (Js.index0 (Js.prop payload "input")) "type"
     = JStr "computer_call_output"
  /\ exists buffer,
      In (PageScreenshot page true, Fulfil buffer)
         (interactions (events (loop_iteration H page step response w)))
      /\ image_url payload
         = JStr ("data:image/png;base64," ++ base64 H buffer).
Proof.
  intros Hwf Hf Hty Hin.
  pose proof (output_find_spec response Hwf) as Hfind.
  rewrite Hf in Hfind.
  apply find_some in Hf as [_ Hcc].
  pose proof (computer_call_truthy cc Hcc) as Htruthy.
  unfold calls_of in Hin.
  rewrite (iteration_calls page step response cc ty w Hfind Htruthy Hty)
    in *.
  cbv zeta in *. rewrite map_app in Hin.
  apply in_app_or in Hin as [Hin | Hin].
  { apply (dispatch_never_requests page _ w) in Hin. discriminate. }
  destruct (outcome_of (handleModelAction H page (Js.prop cc "action") w));
    try contradiction.
  destruct (observe_and_report_request page response cc _ payload Hin)
    as [buffer [Hshot ->]].
  repeat split.
  exists buffer. split; [| reflexivity].
  apply in_or_app. now right.
Qed.

(** *** Counting the calls of a run *)

Lemma dispatch_filter (f : call -> bool) (page action : jsval)
                      (w : world H) :
  (forall c, is_dispatch_call c = true -> f c = false) ->
  filter f (calls_of (events (handleModelAction H page action w))) = [].
Proof.
  intros Hf.
  pose proof (dispatch_calls_only page action w) as Hall.
  induction Hall as [| c l Hc _ IH]; simpl; [reflexivity |].
  now rewrite (Hf c Hc).
Qed.

Lemma loop_event_filter (f : call -> bool) (t : list event) :
  (forall c, is_dispatch_call c = true -> f c = false) ->
  (forall page b, f (PageScreenshot page b) = false) ->
  (forall payload, f (ResponsesCreate payload) = false) ->
  Forall loop_event t -> filter f (calls_of t) = [].
Proof.
  intros Hd Hs Hr. unfold calls_of.
  induction 1 as [| e t He _ IH]; [reflexivity |].
  destruct He as [lvl args | c r Hc | page r | id call_id ack shot r];
    cbn; rewrite ?(Hd _ Hc), ?Hs, ?Hr; exact IH.
Qed.

(** The calls of a run: those of opening the session and, when it opened,
    those of the guarded block with its cleanup. *)
Lemma run_calls (fuel : nat) (prompt : string) (w : world H) :
  calls_of (events (runComputerUseAgent H fuel prompt w))
  = (calls_of (events (launchSandboxedBrowser H w))
     ++ match outcome_of (launchSandboxedBrowser H w) with
        | Returned (browser, page) =>
            calls_of
              (events
                 (try_finally H
                    (bind H (await H (ResponsesCreate (first_request prompt)))
                       (fun response => agent_loop H fuel page 0 response))
                    (bind H (await H (BrowserClose browser))
                       (fun _ => ret H tt))
                    (world_after (launchSandboxedBrowser H w))))
        | _ => []
        end)%list.
Proof.
  unfold runComputerUseAgent, log.
  rewrite bind_console, events_prefixed, events_bind, !calls_of_app.
  destruct (outcome_of (launchSandboxedBrowser H w)) as [[browser page] | |];
    reflexivity.
Qed.

Lemma run_outcome (fuel : nat) (prompt : string) (w : world H) :
  outcome_of (runComputerUseAgent H fuel prompt w)
  = match outcome_of (launchSandboxedBrowser H w) with
    | Returned (browser, page) =>
        outcome_of
          (try_finally H
             (bind H (await H (ResponsesCreate (first_request prompt)))
                (fun response => agent_loop H fuel page 0 response))
             (bind H (await H (BrowserClose browser)) (fun _ => ret H tt))
             (world_after (launchSandboxedBrowser H w)))
    | Thrown e => Thrown e
    | Pending => Pending
    end.
Proof.
  unfold runComputerUseAgent, log.
  rewrite bind_console, outcome_prefixed, outcome_bind.
  destruct (outcome_of (launchSandboxedBrowser H w)) as [[browser page] | |];
    reflexivity.
Qed.

Lemma close_calls (browser : jsval) (w : world H) :
  calls_of (events (bind H (await H (BrowserClose browser))
                      (fun _ => ret H tt) w))
  = [BrowserClose browser].
Proof.
  rewrite events_bind, events_await, calls_of_app. cbn.
  now destruct (outcome_of (await H (BrowserClose browser) w)).
Qed.

Lemma launch_filter (f : call -> bool) (w : world H) :
  (forall o, f (ChromiumLaunch o) = false) ->
  (forall b, f (BrowserNewPage b) = false) ->
  (forall p x y, f (PageSetViewportSize p x y) = false) ->
  filter f (calls_of (events (launchSandboxedBrowser H w))) = [].
Proof.
  intros Hl Hn Hv.
  unfold launchSandboxedBrowser, bind, log, console, ret, await.
  destruct (exec H (ChromiumLaunch launch_options) w)
    as [[browser | e1] w1]; cbn; rewrite ?Hl; [| reflexivity].
  destruct (exec H (BrowserNewPage browser) w1) as [[page | e2] w2]; cbn;
    rewrite ?Hl, ?Hn; [| reflexivity].
  destruct (exec H _ w2) as [[v | e3] w3]; cbn;
    now rewrite ?Hl, ?Hn, ?Hv.
Qed.

(** One pass captures at most one screenshot and sends at most one
    request, never a request without a screenshot; a pass that continues did
    both, a pass that finishes did neither. *)
Lemma pass_counts (page : jsval) (step : nat) (response : jsval)
                  (w : world H) :
  let cs := calls_of (events (loop_iteration H page step response w)) in
  let requests := List.length (filter is_request cs) in
  let shots := List.length (filter is_screenshot cs) in
  (requests <= shots)%nat /\ (shots <= 1)%nat
  /\ (forall v,
         outcome_of (loop_iteration H page step response w) = Returned v ->
         requests = shots
         /\ match v with
            | Done _ => requests = 0%nat
            | Continue _ => requests = 1%nat
            end).
Proof.
  cbv zeta.
  destruct (output_find response) as [cc |] eqn:Hfind.
  2: { rewrite (iteration_unreadable_output page step response w Hfind).
       cbn. split; [lia | split; [lia | discriminate]]. }
  destruct (Js.truthy cc) eqn:Htruthy.
  2: { rewrite (iteration_finishes page step response cc w Hfind Htruthy).
       cbn. split; [lia | split; [lia |]].
       intros v Hv. destruct (final_text response); try discriminate.
       injection Hv as <-. split; reflexivity. }
  destruct (Js.member (Js.prop cc "action") "type") as [ty |] eqn:Hty.
  2: { rewrite (iteration_unreadable_action page step response cc w
                  Hfind Htruthy Hty).
       cbn. split; [lia | split; [lia | discriminate]]. }
  unfold calls_of.
  rewrite (iteration_calls page step response cc ty w Hfind Htruthy Hty),
    (iteration_acts page step response cc ty w Hfind Htruthy Hty).
  cbv zeta. rewrite map_app, !filter_app, !length_app.
  fold (calls_of (events (handleModelAction H page (Js.prop cc "action") w))).
  rewrite (dispatch_filter is_request), (dispatch_filter is_screenshot)
    by (intros c; destruct c; cbn; congruence).
  destruct (outcome_of (handleModelAction H page (Js.prop cc "action") w));
    cbn [outcome_of].
  2, 3: cbn; split; [lia | split; [lia | discriminate]].
  unfold observe_and_report, captureScreenshot, bind, log, console, ret,
    await.
  destruct (exec H (PageWaitForTimeout page (JNum 750)) _)
    as [[v1 | e1] w1]; cbn;
    [| split; [lia | split; [lia | discriminate]]].
  destruct (exec H (PageScreenshot page true) w1)
    as [[buffer | e2] w2]; cbn;
    [| split; [lia | split; [lia | discriminate]]].
  destruct (exec H _ w2) as [[response' | e3] w3]; cbn;
    (split; [lia | split; [lia |]]); [| discriminate].
  intros v [= <-]. split; reflexivity.
Qed.

Lemma loop_counts (fuel : nat) (page : jsval) (step : nat)
                  (response : jsval) (w : world H) :
  let cs := calls_of (events (agent_loop H fuel page step response w)) in
  let requests := List.length (filter is_request cs) in
  let shots := List.length (filter is_screenshot cs) in
  (requests <= shots)%nat /\ (shots <= requests + 1)%nat
  /\ (forall text,
         outcome_of (agent_loop H fuel page step response w) = Returned text ->
         requests = shots).
Proof.
  cbv zeta. revert step response w.
  induction fuel as [| fuel IH]; intros step response w.
  - cbn. split; [lia | split; [lia | discriminate]].
  - cbn [agent_loop].
    rewrite events_bind, outcome_bind, calls_of_app, !filter_app,
      !length_app.
    destruct (pass_counts page (S step) response w) as [Hle [Hone Hret]].
    cbv zeta in Hle, Hone, Hret.
    remember (loop_iteration H page (S step) response w) as pass eqn:Hpass.
    clear Hpass.
    destruct (outcome_of pass) as [[text | response'] | e |].
    + destruct (Hret _ eq_refl) as [Heq Hzero].
      cbn. split; [lia | split; [lia | intros; lia]].
    + destruct (Hret _ eq_refl) as [Heq Hone'].
      destruct (IH (S step) response' (world_after pass))
        as [Hle' [Hup' Hret']].
      split; [lia | split; [lia |]].
      intros text Htext. specialize (Hret' text Htext). lia.
    + cbn. split; [lia | split; [lia | discriminate]].
    + cbn. split; [lia | split; [lia | discriminate]].
Qed.

(** X11.  Over a whole run every captured screenshot is matched by a request
    to the model: the run never holds more screenshots than it has sent
    requests, is at most one request ahead, and when it returns it has sent
    exactly one request more than it captured screenshots (the first
    request, which carries the prompt). *)
Theorem requests_match_screenshots
        (fuel : nat) (prompt : string) (w : world H) :
  let cs := calls_of (events (runComputerUseAgent H fuel prompt w)) in
  let requests := List.length (filter is_request cs) in
  let shots := List.length (filter is_screenshot cs) in
  (shots <= requests)%nat /\ (requests <= shots + 1)%nat
  /\ (forall text,
         outcome_of (runComputerUseAgent H fuel prompt w) = Returned text ->
         requests = (shots + 1)%nat).
Proof.
  cbv zeta. rewrite run_calls, run_outcome, !filter_app, !length_app.
  rewrite (launch_filter is_request), (launch_filter is_screenshot)
    by reflexivity.
  destruct (outcome_of (launchSandboxedBrowser H w)) as [[browser page] | |].
  2, 3: cbn; split; [lia | split; [lia | discriminate]].
  set (w1 := world_after (launchSandboxedBrowser H w)).
  rewrite events_try_finally, outcome_try_finally, calls_of_app,
    !filter_app, !length_app.
  rewrite events_bind, outcome_bind, events_await, outcome_await,
    calls_of_app, !filter_app, !length_app.
  assert (Hclose :
            forall w',
              filter is_request
                (calls_of (events (bind H (await H (BrowserClose browser))
                                     (fun _ => ret H tt) w'))) = []
              /\ filter is_screenshot
                   (calls_of (events (bind H (await H (BrowserClose browser))
                                        (fun _ => ret H tt) w'))) = []).
  { intros w'. now rewrite close_calls. }
  destruct (fst (exec H (ResponsesCreate (first_request prompt)) w1))
    as [response | e].
  - destruct (loop_counts fuel page 0 response
                (world_after
                   (await H (ResponsesCreate (first_request prompt)) w1)))
      as [Hle [Hup Hret]].
    cbv zeta in Hle, Hup, Hret.
    destruct (outcome_of (agent_loop H fuel page 0 response _))
      as [text | e |] eqn:Hloop.
    + destruct (Hclose (world_after
                          (bind H
                             (await H
                                (ResponsesCreate (first_request prompt)))
                             (fun response0 =>
                                agent_loop H fuel page 0 response0) w1)))
        as [-> ->].
      specialize (Hret text eq_refl). cbn.
      split; [lia | split; [lia | intros; lia]].
    + destruct (Hclose (world_after
                          (bind H
                             (await H
                                (ResponsesCreate (first_request prompt)))
                             (fun response0 =>
                                agent_loop H fuel page 0 response0) w1)))
        as [-> ->].
      cbn. split; [lia | split; [lia |]].
      intros text.
      destruct (outcome_of (bind H (await H (BrowserClose browser))
                              (fun _ => ret H tt) _)); discriminate.
    + cbn. split; [lia | split; [lia | discriminate]].
  - destruct (Hclose (world_after
                        (bind H
                           (await H
                              (ResponsesCreate (first_request prompt)))
                           (fun response0 =>
                              agent_loop H fuel page 0 response0) w1)))
      as [-> ->].
    cbn. split; [lia | split; [lia |]].
    intros text.
    destruct (outcome_of (bind H (await H (BrowserClose browser))
                            (fun _ => ret H tt) _)); discriminate.
Qed.

Lemma launch_calls_cases (w : world H) :
  exists opening,
    calls_of (events (launchSandboxedBrowser H w))
    = ChromiumLaunch launch_options :: opening
    /\ (opening = []
        \/ (exists b, opening = [BrowserNewPage b])
        \/ (exists b p,
               opening = [BrowserNewPage b; PageSetViewportSize p 1024 768])).
Proof.
  unfold launchSandboxedBrowser, bind, log, console, ret, await.
  destruct (exec H (ChromiumLaunch launch_options) w)
    as [[browser | e1] w1]; cbn; [| eauto].
  destruct (exec H (BrowserNewPage browser) w1) as [[page | e2] w2]; cbn;
    [| eauto 6].
  destruct (exec H _ w2) as [[v | e3] w3]; cbn; eauto 8.
Qed.

(** The calls made once the session is open: the first request, the calls of
    the loop, and the closing of the browser unless the loop is still
    running. *)
Lemma session_calls (fuel : nat) (prompt : string) (browser page : jsval)
                    (w : world H) :
  exists t closing,
    calls_of
      (events
         (try_finally H
            (bind H (await H (ResponsesCreate (first_request prompt)))
               (fun response => agent_loop H fuel page 0 response))
            (bind H (await H (BrowserClose browser)) (fun _ => ret H tt))
            w))
    = (ResponsesCreate (first_request prompt) :: calls_of t ++ closing)%list
    /\ Forall loop_event t
    /\ (closing = [] \/ closing = [BrowserClose browser]).
Proof.
  rewrite events_try_finally, calls_of_app.
  rewrite events_bind, events_await, calls_of_app.
  cbn [calls_of interactions map fst app].
  set (first := await H (ResponsesCreate (first_request prompt)) w).
  set (body := bind H (await H (ResponsesCreate (first_request prompt)))
                 (fun response => agent_loop H fuel page 0 response) w).
  exists (match outcome_of first with
          | Returned a => events (agent_loop H fuel page 0 a
                                    (world_after first))
          | _ => []
          end).
  exists (match outcome_of body with
          | Pending => []
          | _ => [BrowserClose browser]
          end).
  split; [| split].
  - f_equal. f_equal.
    destruct (outcome_of body); try reflexivity; apply close_calls.
  - destruct (outcome_of first); try constructor.
    apply agent_loop_events.
  - destruct (outcome_of body); auto.
Qed.

(** *** The viewport *)

Lemma interactions_in (c : call) (r : reply) (t : list event) :
  In (c, r) (interactions t) -> In (EvCall c r) t.
Proof.
  induction t as [| [c' r' | lvl args] t IH]; simpl; [tauto | |].
  - intros [[= -> ->] | Hin]; [now left | right; now apply IH].
  - intros Hin. right. now apply IH.
Qed.

(** A session that opened did so through three fulfilled calls, the last of
    which sets the viewport of the new page. *)
Lemma launch_opened (w : world H) (browser page : jsval) :
  outcome_of (launchSandboxedBrowser H w) = Returned (browser, page) ->
  exists v,
    interactions (events (launchSandboxedBrowser H w))
    = [(ChromiumLaunch launch_options, Fulfil browser);
       (BrowserNewPage browser, Fulfil page);
       (PageSetViewportSize page 1024 768, Fulfil v)].
Proof.
  unfold launchSandboxedBrowser, bind, log, console, ret, await.
  destruct (exec H (ChromiumLaunch launch_options) w)
    as [[b | e1] w1]; cbn; [| discriminate].
  destruct (exec H (BrowserNewPage b) w1) as [[p | e2] w2]; cbn;
    [| discriminate].
  destruct (exec H _ w2) as [[v | e3] w3]; cbn; [| discriminate].
  intros [= -> ->]. now exists v.
Qed.

Lemma launch_sends_nothing (w : world H) (payload : jsval) (r : reply) :
  ~ In (ResponsesCreate payload, r)
       (interactions (events (launchSandboxedBrowser H w))).
Proof.
  intros Hin. apply in_interactions_calls in Hin.
  exact (filter_nil_not_in is_request _ (ResponsesCreate payload)
           (launch_filter is_request w
              (fun _ => eq_refl) (fun _ => eq_refl) (fun _ _ _ => eq_refl))
           eq_refl Hin).
Qed.

(** The interactions of a run: those of opening the session and, when it
    opened, those of the guarded block with its cleanup. *)
Lemma run_interactions (fuel : nat) (prompt : string) (w : world H) :
  interactions (events (runComputerUseAgent H fuel prompt w))
  = (interactions (events (launchSandboxedBrowser H w))
     ++ match outcome_of (launchSandboxedBrowser H w) with
        | Returned (browser, page) =>
            interactions
              (events
                 (try_finally H
                    (bind H (await H (ResponsesCreate (first_request prompt)))
                       (fun response => agent_loop H fuel page 0 response))
                    (bind H (await H (BrowserClose browser))
                       (fun _ => ret H tt))
                    (world_after (launchSandboxedBrowser H w))))
        | _ => []
        end)%list.
Proof.
  unfold runComputerUseAgent, log.
  rewrite bind_console, events_prefixed, events_bind, !interactions_app.
  destruct (outcome_of (launchSandboxedBrowser H w)) as [[browser page] | |];
    reflexivity.
Qed.

(** C7.  Every request a run sends to the model, the first one and
    every follow-up, declares a display of 1024 by 768, and that is the
    viewport of the page: before any request is sent the session was opened
    by launching the browser, creating the page and setting its viewport to
    1024 by 768, all three fulfilled, and the viewport is never set again
    during the run. *)
Theorem viewport_fixed (fuel : nat) (prompt : string) (w : world H)
                       (payload : jsval) (r : reply) :
  In (ResponsesCreate payload, r)
     (interactions (events (runComputerUseAgent H fuel prompt w))) ->
  declared_viewport payload = Some (1024, 768)
  /\ exists browser page v rest,
      interactions (events (runComputerUseAgent H fuel prompt w))
      = ((ChromiumLaunch launch_options, Fulfil browser)
         :: (BrowserNewPage browser, Fulfil page)
         :: (PageSetViewportSize page 1024 768, Fulfil v) :: rest)%list
      /\ In (ResponsesCreate payload, r) rest
      /\ filter is_viewport (map fst rest) = [].
Proof.
  intros Hin. split.
  - pose proof (run_events fuel prompt w) as Hall.
    rewrite Forall_forall in Hall.
    exact (run_event_viewport _ (Hall _ (interactions_in _ _ _ Hin))).
  - rewrite run_interactions in *.
    apply in_app_or in Hin as [Hin | Hin];
      [now apply launch_sends_nothing in Hin |].
    destruct (outcome_of (launchSandboxedBrowser H w))
      as [[browser page] | e |] eqn:Hopen; try contradiction.
    destruct (launch_opened w browser page Hopen) as [v ->].
    exists browser, page, v. eexists. split; [reflexivity |].
    split; [exact Hin |].
    fold (calls_of
            (events
               (try_finally H
                  (bind H (await H (ResponsesCreate (first_request prompt)))
                     (fun response => agent_loop H fuel page 0 response))
                  (bind H (await H (BrowserClose browser))
                     (fun _ => ret H tt))
                  (world_after (launchSandboxedBrowser H w))))).
    destruct (session_calls fuel prompt browser page
                (world_after (launchSandboxedBrowser H w)))
      as [t [closing [-> [Ht Hclosing]]]].
    cbn [filter is_viewport]. rewrite filter_app.
    rewrite (loop_event_filter is_viewport t)
      by (auto; intros c; destruct c; cbn; congruence).
    destruct Hclosing as [-> | ->]; reflexivity.
Qed.

(** X12.  A run launches the browser exactly once, always with the sandbox
    options of the service, opens at most one page and closes at most once,
    however many steps the model asks for. *)
Theorem one_browser_per_run (fuel : nat) (prompt : string) (w : world H) :
  let cs := calls_of (events (runComputerUseAgent H fuel prompt w)) in
  filter is_launch cs = [ChromiumLaunch launch_options]
  /\ (List.length (filter is_new_page cs) <= 1)%nat
  /\ (List.length (filter is_close cs) <= 1)%nat.
Proof.
  cbv zeta. rewrite run_calls.
  destruct (launch_calls_cases w) as [opening [-> Hopening]].
  assert (Htail :
            exists t closing,
              Forall loop_event t
              /\ (closing = [] \/ exists b, closing = [BrowserClose b])
              /\ (match outcome_of (launchSandboxedBrowser H w) with
                  | Returned (browser, page) =>
                      calls_of
                        (events
                           (try_finally H
                              (bind H
                                 (await H
                                    (ResponsesCreate (first_request prompt)))
                                 (fun response =>
                                    agent_loop H fuel page 0 response))
                              (bind H (await H (BrowserClose browser))
                                 (fun _ => ret H tt))
                              (world_after (launchSandboxedBrowser H w))))
                  | _ => []
                  end
                  = (filter is_request
                       (match outcome_of (launchSandboxedBrowser H w) with
                        | Returned _ =>
                            [ResponsesCreate (first_request prompt)]
                        | _ => []
                        end)
                     ++ calls_of t ++ closing)%list)).
  { destruct (outcome_of (launchSandboxedBrowser H w))
      as [[browser page] | e |].
    - destruct (session_calls fuel prompt browser page
                  (world_after (launchSandboxedBrowser H w)))
        as [t [closing [Hc [Ht Hcl]]]].
      exists t, closing. split; [exact Ht |]. split; [| exact Hc].
      destruct Hcl as [-> | ->]; eauto.
    - exists [], []. repeat split; auto.
    - exists [], []. repeat split; auto. }
  destruct Htail as [t [closing [Ht [Hcl ->]]]].
  assert (Hl : filter is_launch (calls_of t) = [])
    by (apply loop_event_filter; auto; intros c; destruct c; cbn; congruence).
  assert (Hn : filter is_new_page (calls_of t) = [])
    by (apply loop_event_filter; auto; intros c; destruct c; cbn; congruence).
  assert (Hc : filter is_close (calls_of t) = [])
    by (apply loop_event_filter; auto; intros c; destruct c; cbn; congruence).
  assert (Hreq :
            forall f,
              (forall p, f (ResponsesCreate p) = false) ->
              filter f
                (filter is_request
                   match outcome_of (launchSandboxedBrowser H w) with
                   | Returned _ => [ResponsesCreate (first_request prompt)]
                   | _ => []
                   end) = []).
  { intros f Hf. destruct (outcome_of _); cbn; now rewrite ?Hf. }
  cbn [filter is_launch is_new_page is_close app].
  rewrite !filter_app, Hl, Hn, Hc, !Hreq by reflexivity.
  cbn [app].
  destruct Hopening as [-> | [[b ->] | [b [p ->]]]];
    destruct Hcl as [-> | [b' ->]]; cbn; repeat split; lia.
Qed.

(** *** How a run ends *)

(** X2.  When [browser.close()] itself rejects, the run rejects with the
    reason of the close, whatever the loop had returned or thrown: a result
    the model produced is lost. *)
Theorem close_failure_replaces_outcome
        (fuel : nat) (prompt : string) (w : world H)
        (browser page : jsval) (e : jsval) :
  outcome_of (launchSandboxedBrowser H w) = Returned (browser, page) ->
  In (BrowserClose browser, Reject e)
     (interactions (events (runComputerUseAgent H fuel prompt w))) ->
  outcome_of (runComputerUseAgent H fuel prompt w) = Thrown e.
Proof.
  intros Hopen Hin.
  pose proof (launch_closes_nothing w) as Hlaunch.
  set (body := bind H (await H (ResponsesCreate (first_request prompt)))
                 (fun response => agent_loop H fuel page 0 response)).
  set (cleanup := bind H (await H (BrowserClose browser))
                    (fun _ => ret H tt)).
  set (w1 := world_after (launchSandboxedBrowser H w)).
  assert (Hbody : filter is_close (calls_of (events (body w1))) = []).
  { subst body.
    rewrite events_bind, calls_of_app, filter_app, events_await. cbn.
    destruct (outcome_of
                (await H (ResponsesCreate (first_request prompt)) w1));
      try reflexivity.
    apply loop_event_not_close, agent_loop_events. }
  assert (Hevents :
            interactions (events (runComputerUseAgent H fuel prompt w))
            = (interactions (events (launchSandboxedBrowser H w))
               ++ interactions (events (try_finally H body cleanup w1)))%list).
  { unfold runComputerUseAgent, log.
    rewrite bind_console, events_prefixed, events_bind, Hopen.
    rewrite !interactions_app. reflexivity. }
  rewrite run_outcome, Hopen. fold body cleanup w1.
  rewrite Hevents, events_try_finally, interactions_app in Hin.
  rewrite outcome_try_finally.
  apply in_app_or in Hin as [Hin | Hin].
  { apply in_interactions_calls in Hin.
    exfalso.
    exact (filter_nil_not_in is_close _ (BrowserClose browser) Hlaunch
             eq_refl Hin). }
  apply in_app_or in Hin as [Hin | Hin].
  { apply in_interactions_calls in Hin.
    exfalso.
    exact (filter_nil_not_in is_close _ (BrowserClose browser) Hbody
             eq_refl Hin). }
  assert (Hcleanup :
            forall w',
              In (BrowserClose browser, Reject e)
                 (interactions (events (cleanup w'))) ->
              outcome_of (cleanup w') = Thrown e).
  { intros w'. subst cleanup. unfold bind, await, ret.
    destruct (exec H (BrowserClose browser) w') as [[v | e'] w'']; cbn.
    - intros [[=] | []].
    - intros [[= ->] | []]. reflexivity. }
  destruct (outcome_of (body w1)).
  - now rewrite (Hcleanup _ Hin).
  - now rewrite (Hcleanup _ Hin).
  - destruct Hin.
Qed.

(** X3.  When the first request to the model is rejected, nothing is done
    on the page: the browser that was opened is closed and the rejection is
    what the caller receives. *)
Theorem transport_failure_closes_browser
        (fuel : nat) (prompt : string) (w : world H)
        (browser : jsval) (w1 : world H) (page : jsval) (w2 : world H)
        (v : jsval) (w3 : world H) (reason : jsval) (w4 : world H)
        (v' : jsval) (w5 : world H) :
  exec H (ChromiumLaunch launch_options) w = (Fulfil browser, w1) ->
  exec H (BrowserNewPage browser) w1 = (Fulfil page, w2) ->
  exec H (PageSetViewportSize page 1024 768) w2 = (Fulfil v, w3) ->
  exec H (ResponsesCreate (first_request prompt)) w3 = (Reject reason, w4) ->
  exec H (BrowserClose browser) w4 = (Fulfil v', w5) ->
  outcome_of (runComputerUseAgent H fuel prompt w) = Thrown reason
  /\ calls_of (events (runComputerUseAgent H fuel prompt w))
     = [ChromiumLaunch launch_options;
        BrowserNewPage browser;
        PageSetViewportSize page 1024 768;
        ResponsesCreate (first_request prompt);
        BrowserClose browser].
Proof.
  intros Hlaunch Hpage Hview Hsend Hclose.
  assert (Hopen : launchSandboxedBrowser H w
                  = Run (Returned (browser, page)) w3
                        [EvCall (ChromiumLaunch launch_options)
                                (Fulfil browser);
                         EvCall (BrowserNewPage browser) (Fulfil page);
                         EvCall (PageSetViewportSize page 1024 768)
                                (Fulfil v);
                         EvConsole LogLevel
                           [JStr "[LLMService]";
                            JStr "Launched sandboxed browser"]]).
  { unfold launchSandboxedBrowser, bind, await, log, console, ret.
    rewrite Hlaunch. cbn. rewrite Hpage. cbn. rewrite Hview. reflexivity. }
  assert (Hsession :
            try_finally H
              (bind H (await H (ResponsesCreate (first_request prompt)))
                 (fun response => agent_loop H fuel page 0 response))
              (bind H (await H (BrowserClose browser)) (fun _ => ret H tt))
              w3
            = Run (Thrown reason) w5
                  [EvCall (ResponsesCreate (first_request prompt))
                          (Reject reason);
                   EvCall (BrowserClose browser) (Fulfil v')]).
  { unfold try_finally, bind, await, ret.
    rewrite Hsend. cbn. rewrite Hclose. reflexivity. }
  rewrite run_calls, run_outcome, Hopen. cbn [outcome_of world_after events].
  rewrite Hsession. split; reflexivity.
Qed.

Lemma main_run (fuel : nat) (w : world H) :
  main H fuel w
  = match runComputerUseAgent H fuel main_prompt w with
    | Run (Returned text) w1 t1 =>
        Run (Returned None) w1
            (EvConsole LogLevel [JStr "Sending prompt to OpenAI agent..."]
             :: t1
             ++ [EvConsole LogLevel
                   [JStr ("Agent result:" ++ Js.newline); JStr text]])
    | Run (Thrown e) w1 t1 =>
        Run (Returned (Some 1)) w1
            ((EvConsole LogLevel [JStr "Sending prompt to OpenAI agent..."]
              :: t1)
             ++ [EvConsole ErrorLevel [JStr "Error running agent:"; e]])
    | Run Pending w1 t1 =>
        Run Pending w1
            (EvConsole LogLevel [JStr "Sending prompt to OpenAI agent..."]
             :: t1)
    end.
Proof.
  unfold main, try_catch. rewrite bind_console. unfold bind at 1.
  destruct (runComputerUseAgent H fuel main_prompt w)
    as [[text | e |] w1 t1]; cbn; rewrite ?app_nil_r; reflexivity.
Qed.

(** X13.  The script that drives the agent never rejects: it ends normally
    whether the agent returned or threw, sets the exit code to 1 exactly
    when the agent threw, and makes no call of its own. *)
Theorem main_never_rejects (fuel : nat) (w : world H) :
  outcome_of (main H fuel w)
  = match outcome_of (runComputerUseAgent H fuel main_prompt w) with
    | Returned _ => Returned None
    | Thrown _ => Returned (Some 1)
    | Pending => Pending
    end
  /\ interactions (events (main H fuel w))
     = interactions (events (runComputerUseAgent H fuel main_prompt w))
  /\ world_after (main H fuel w)
     = world_after (runComputerUseAgent H fuel main_prompt w).
Proof.
  rewrite main_run.
  destruct (runComputerUseAgent H fuel main_prompt w)
    as [[text | e |] w1 t1]; cbn;
    rewrite ?interactions_app; cbn; rewrite ?app_nil_r;
    now repeat split.
Qed.

(** X1.  Once the session has opened, a run that has ended, by returning or
    by throwing, has closed the browser exactly once, and that was its last
    call. *)
Theorem open_session_closed_exactly_once
        (fuel : nat) (prompt : string) (w : world H)
        (browser page : jsval) :
  outcome_of (launchSandboxedBrowser H w) = Returned (browser, page) ->
  outcome_of (runComputerUseAgent H fuel prompt w) <> Pending ->
  filter is_close (calls_of (events (runComputerUseAgent H fuel prompt w)))
  = [BrowserClose browser]
  /\ last (calls_of (events (runComputerUseAgent H fuel prompt w)))
          (BrowserClose browser)
     = BrowserClose browser
  /\ calls_of (events (runComputerUseAgent H fuel prompt w)) <> [].
Proof.
  intros Hopen Hended.
  destruct (session_closed_once fuel prompt w browser page Hopen Hended)
    as [before [-> Hbefore]].
  rewrite filter_app, Hbefore, last_last. cbn.
  repeat split. intros Hnil. now destruct before.
Qed.

(* ================================================================== *)
(** ** What a run resolves with *)


















End Properties.

(* ================================================================== *)
(** ** The statements on concrete conversations *)

(** The scenario of the specification: a click, then a final turn with the
    two fragments "Done" and "Task complete". *)
Example scenario_click_then_done :
  let r := runComputerUseAgent (scripted no_failure) 5 "Click the button"
             [Fulfil (turn_with "resp_1" click_action (JArr []));
              Fulfil done_turn] in
  outcome_of r = Returned ("Done" ++ Js.newline ++ "Task complete")
  /\ calls_of (events r)
     = [ChromiumLaunch launch_options;
        BrowserNewPage (JStr "browser#1");
        PageSetViewportSize (JStr "page#1") 1024 768;
        ResponsesCreate (first_request "Click the button");
        MouseClick (JStr "page#1") (JNum 50) (JNum 50) (JStr "left");
        PageWaitForTimeout (JStr "page#1") (JNum 750);
        PageScreenshot (JStr "page#1") true;
        ResponsesCreate
          (next_request (JStr "resp_1") (JStr "call_1") (JArr [])
             "iVBORw0KGgo=");
        BrowserClose (JStr "browser#1")].
Proof. vm_compute. split; reflexivity. Qed.

(** The scenario of the specification with a kind outside the vocabulary:
    nothing is dispatched, the screenshot is still taken and sent. *)
Example scenario_unknown_kind :
  let r := runComputerUseAgent (scripted no_failure) 5 "Drag the slider"
             [Fulfil (turn_with "resp_1" drag_action (JArr []));
              Fulfil done_turn] in
  outcome_of r = Returned ("Done" ++ Js.newline ++ "Task complete")
  /\ calls_of (events r)
     = [ChromiumLaunch launch_options;
        BrowserNewPage (JStr "browser#1");
        PageSetViewportSize (JStr "page#1") 1024 768;
        ResponsesCreate (first_request "Drag the slider");
        PageWaitForTimeout (JStr "page#1") (JNum 750);
        PageScreenshot (JStr "page#1") true;
        ResponsesCreate
          (next_request (JStr "resp_1") (JStr "call_1") (JArr [])
             "iVBORw0KGgo=");
        BrowserClose (JStr "browser#1")].
Proof. vm_compute. split; reflexivity. Qed.

(** A model endpoint that cannot be reached: the run is rejected after the
    browser has been closed. *)
Example scenario_transport_failure :
  let r := runComputerUseAgent (scripted no_failure) 5 "Anything" [] in
  outcome_of r = Thrown (JStr "connection refused")
  /\ calls_of (events r)
     = [ChromiumLaunch launch_options;
        BrowserNewPage (JStr "browser#1");
        PageSetViewportSize (JStr "page#1") 1024 768;
        ResponsesCreate (first_request "Anything");
        BrowserClose (JStr "browser#1")].
Proof. vm_compute. split; reflexivity. Qed.

(** A loop observed for fewer passes than the model asks for is still
    running: nothing has been returned and the browser is still open. *)
Example scenario_still_running :
  let r := runComputerUseAgent (scripted no_failure) 1 "Click twice"
             [Fulfil (turn_with "resp_1" click_action (JArr []));
              Fulfil (turn_with "resp_2" click_action (JArr []));
              Fulfil done_turn] in
  outcome_of r = Pending
  /\ filter is_close (calls_of (events r)) = [].
Proof. vm_compute. split; reflexivity. Qed.



Lemma browser_left_open_when_page_fails_witness :
  let r := runComputerUseAgent (scripted page_creation_fails) 5
             "Open example.com" [Fulfil done_turn] in
  outcome_of r = Thrown (JStr "host failure")
  /\ calls_of (events r)
     = [ChromiumLaunch launch_options; BrowserNewPage (JStr "browser#1")]
  /\ filter is_close (calls_of (events r)) = [].
Proof.
  exact (browser_left_open_when_page_fails (scripted page_creation_fails)
           5 "Open example.com" [Fulfil done_turn]
           (JStr "browser#1") [Fulfil done_turn]
           (JStr "host failure") [Fulfil done_turn]
           eq_refl eq_refl).
Defined.

Lemma safety_checks_echoed_witness :
  acknowledged
    (next_request (JStr "resp_1") (JStr "call_1") (JArr [safety_token])
       "iVBORw0KGgo=")
  = JArr [safety_token].
Proof.
  refine (proj1
            (safety_checks_echoed (scripted no_failure) (JStr "page#1") 1
               (turn_with "resp_1" click_action (JArr [safety_token]))
               _ (JStr "click") [Fulfil done_turn]
               (next_request (JStr "resp_1") (JStr "call_1")
                  (JArr [safety_token]) "iVBORw0KGgo=")
               (Fulfil done_turn)
               eq_refl eq_refl eq_refl _)
            [safety_token] eq_refl).
  vm_compute. repeat (first [left; reflexivity | right]).
Defined.

Lemma recoverable_failures_absorbed_witness :
  (recoverable (scripted no_failure) (JStr "page#1") drag_action []
   /\ outcome_of (handleModelAction (scripted no_failure) (JStr "page#1")
                    drag_action [])
      = Returned tt)
  /\ (recoverable (scripted no_failure) (JStr "page#1") untyped_action []
      /\ outcome_of (handleModelAction (scripted no_failure) (JStr "page#1")
                       untyped_action [])
         = Returned tt).
Proof.
  assert (Hdrag : recoverable (scripted no_failure) (JStr "page#1")
                    drag_action []).
  { apply (unknown_kind _ _ _ _ "drag"); [reflexivity | | reflexivity].
    intros kind Hin [= <-]. simpl in Hin. intuition discriminate. }
  assert (Huntyped : recoverable (scripted no_failure) (JStr "page#1")
                       untyped_action []).
  { apply (unknown_kind _ _ _ _ "undefined");
      [reflexivity | | reflexivity].
    intros kind _. discriminate. }
  split; (split; [assumption |]).
  - exact (proj1 (recoverable_failures_absorbed (scripted no_failure)
                    (JStr "page#1") drag_action [] Hdrag)).
  - exact (proj1 (recoverable_failures_absorbed (scripted no_failure)
                    (JStr "page#1") untyped_action [] Huntyped)).
Defined.

(** The statement of C4 for every action value.  The kind of the first
    action is none of the vocabulary, yet the dispatch throws and the run
    ends: its [type] is an object that shadows [toString] with data, so the
    template literal of the warning cannot print it.  The second action is
    [null], which has no [type] to read. *)
Lemma unprintable_kind_raises :
  let action := JObj [("type", JObj [("toString", JStr "x")])] in
  let r := runComputerUseAgent (scripted no_failure) 5 "Report"
             [Fulfil (turn_with "resp_1" action (JArr []));
              Fulfil done_turn] in
  (forall kind, In kind vocabulary -> Js.prop action "type" <> JStr kind)
  /\ outcome_of (handleModelAction (scripted no_failure) (JStr "page#1")
                   action [])
     = Thrown type_error
  /\ outcome_of r = Thrown type_error
  /\ filter is_screenshot (calls_of (events r)) = []
  /\ outcome_of (handleModelAction (scripted no_failure) (JStr "page#1")
                   JNull [])
     = Thrown type_error.
Proof.
  cbv zeta. split; [intros kind _; discriminate |].
  vm_compute. repeat split.
Qed.

Lemma dispatch_invokes_matching_primitive_witness :
  requests click_action (Click 50 50 LeftButton)
  /\ same_interaction
       (handleModelAction (scripted no_failure) (JStr "page#1")
          click_action [])
       (perform (scripted no_failure) (JStr "page#1")
          (Click 50 50 LeftButton) []).
Proof.
  assert (Hclick : requests click_action (Click 50 50 LeftButton))
    by (apply req_click; reflexivity).
  split; [exact Hclick |].
  exact (proj1 (dispatch_invokes_matching_primitive (scripted no_failure)
                  (JStr "page#1") click_action (Click 50 50 LeftButton) []
                  Hclick)).
Defined.


Lemma screenshot_after_every_action_witness :
  calls_of
    (events (loop_iteration (scripted no_failure) (JStr "page#1") 1
               (turn_with "resp_1" screenshot_action (JArr []))
               [Fulfil done_turn]))
  = [PageWaitForTimeout (JStr "page#1") (JNum 750);
     PageScreenshot (JStr "page#1") true;
     ResponsesCreate
       (next_request (JStr "resp_1") (JStr "call_1") (JArr [])
          "iVBORw0KGgo=")].
Proof.
  refine (proj1
            (proj2 (screenshot_after_every_action (scripted no_failure)
                      (JStr "page#1") [Fulfil done_turn])
               1%nat (turn_with "resp_1" screenshot_action (JArr []))
               _ (JStr "screenshot")
               (next_request (JStr "resp_1") (JStr "call_1") (JArr [])
                  "iVBORw0KGgo=")
               eq_refl eq_refl eq_refl _)).
  vm_compute. repeat (first [left; reflexivity | right]).
Defined.

Lemma wait_suspends_for_duration_witness :
  calls_of
    (events (handleModelAction (scripted no_failure) (JStr "page#1")
               (JObj [("type", JStr "wait"); ("duration", JNum 250)]) []))
  = [PageWaitForTimeout (JStr "page#1") (JNum 250)]
  /\ calls_of
       (events (handleModelAction (scripted no_failure) (JStr "page#1")
                  (JObj [("type", JStr "wait")]) []))
     = [PageWaitForTimeout (JStr "page#1") (JNum 1000)].
Proof.
  split.
  - exact (proj1 (wait_suspends_for_duration (scripted no_failure)
                    (JStr "page#1")
                    (JObj [("type", JStr "wait"); ("duration", JNum 250)])
                    [] eq_refl) eq_refl).
  - exact (proj2 (wait_suspends_for_duration (scripted no_failure)
                    (JStr "page#1") (JObj [("type", JStr "wait")])
                    [] eq_refl) eq_refl).
Defined.

Lemma navigation_aliases_witness :
  same_interaction
    (handleModelAction (scripted no_failure) (JStr "page#1")
       (JObj [("type", JStr "goto"); ("url", JStr "https://example.com")])
       [])
    (handleModelAction (scripted no_failure) (JStr "page#1")
       (JObj [("type", JStr "navigate");
              ("url", JStr "https://example.com")])
       []).
Proof.
  refine (proj1
            (navigation_aliases (scripted no_failure) (JStr "page#1")
               (JObj [("type", JStr "goto");
                      ("url", JStr "https://example.com")])
               (JObj [("type", JStr "navigate");
                      ("url", JStr "https://example.com")])
               "goto" "navigate" [] _ _ eq_refl eq_refl eq_refl eq_refl));
    simpl; tauto.
Defined.


Lemma viewport_fixed_witness :
  let r := runComputerUseAgent (scripted no_failure) 5 "Click the button"
             [Fulfil (turn_with "resp_1" click_action (JArr []));
              Fulfil done_turn] in
  declared_viewport
    (next_request (JStr "resp_1") (JStr "call_1") (JArr []) "iVBORw0KGgo=")
  = Some (1024, 768)
  /\ exists browser page v rest,
      interactions (events r)
      = ((ChromiumLaunch launch_options, Fulfil browser)
         :: (BrowserNewPage browser, Fulfil page)
         :: (PageSetViewportSize page 1024 768, Fulfil v) :: rest)%list
      /\ In (ResponsesCreate
               (next_request (JStr "resp_1") (JStr "call_1") (JArr [])
                  "iVBORw0KGgo="), Fulfil done_turn) rest
      /\ filter is_viewport (map fst rest) = [].
Proof.
  refine (viewport_fixed (scripted no_failure) 5 "Click the button"
            [Fulfil (turn_with "resp_1" click_action (JArr []));
             Fulfil done_turn]
            (next_request (JStr "resp_1") (JStr "call_1") (JArr [])
               "iVBORw0KGgo=")
            (Fulfil done_turn) _).
  vm_compute. repeat (first [left; reflexivity | right]).
Defined.

(* ================================================================== *)
(** ** The execution prompt and the schedule labels *)

Lemma slice_last_length {A : Type} (n : nat) (l : list A) :
  List.length (Prompts.slice_last n l) = Nat.min n (List.length l).
Proof. unfold Prompts.slice_last. rewrite length_skipn. lia. Qed.

Lemma recent_history_some (h : list Prompts.history_entry) :
  Prompts.recent_history (Some h)
  = map Prompts.content (Prompts.slice_last 3 h).
Proof.
  unfold Prompts.recent_history.
  destruct h as [| e h]; [reflexivity |]. reflexivity.
Qed.

Lemma slice_last_snoc {A : Type} (n : nat) (l : list A) (x : A) :
  Prompts.slice_last (S n) (l ++ [x])
  = (Prompts.slice_last n l ++ [x])%list.
Proof.
  unfold Prompts.slice_last. rewrite length_app. cbn [List.length].
  replace (List.length l + 1 - S n)%nat with (List.length l - n)%nat by lia.
  rewrite skipn_app.
  replace (List.length l - n - List.length l)%nat with 0%nat by lia.
  reflexivity.
Qed.

Lemma slice_last_slice_last {A : Type} (n m : nat) (l : list A) :
  (n <= m)%nat ->
  Prompts.slice_last n (Prompts.slice_last m l) = Prompts.slice_last n l.
Proof.
  intros Hle. unfold Prompts.slice_last at 1.
  rewrite slice_last_length. unfold Prompts.slice_last.
  rewrite skipn_skipn. f_equal. lia.
Qed.

Lemma map_slice_last {A B : Type} (f : A -> B) (n : nat) (l : list A) :
  map f (Prompts.slice_last n l) = Prompts.slice_last n (map f l).
Proof.
  unfold Prompts.slice_last. now rewrite skipn_map, length_map.
Qed.

(** X14.  The execution prompt depends on the stored history only through
    the contents of its last three entries: older entries and all
    timestamps leave the prompt unchanged. *)
Theorem only_recent_history_matters
        (rulePrompt : string) (h1 h2 : list Prompts.history_entry) :
  map Prompts.content (Prompts.slice_last 3 h1)
  = map Prompts.content (Prompts.slice_last 3 h2) ->
  Prompts.buildRuleExecutionPrompt rulePrompt (Some h1)
  = Prompts.buildRuleExecutionPrompt rulePrompt (Some h2).
Proof.
  intros Hrecent. unfold Prompts.buildRuleExecutionPrompt.
  now rewrite !recent_history_some, Hrecent.
Qed.

Lemma recent_history_updated
      (history : option (list Prompts.history_entry))
      (newEntry : Prompts.history_entry) :
  Prompts.recent_history (Some (Prompts.updated_history history newEntry))
  = (Prompts.slice_last 2 (Prompts.recent_history history)
     ++ [Prompts.content newEntry])%list.
Proof.
  rewrite recent_history_some.
  destruct history as [h |]; cbn [Prompts.updated_history].
  - rewrite recent_history_some, slice_last_snoc, map_app. cbn [map].
    f_equal.
    rewrite !map_slice_last. symmetry.
    apply slice_last_slice_last. lia.
  - reflexivity.
Qed.

Lemma recent_history_length
      (history : option (list Prompts.history_entry)) :
  (List.length (Prompts.recent_history history) <= 3)%nat.
Proof.
  destruct history as [h |]; [| cbn; lia].
  rewrite recent_history_some, length_map, slice_last_length. lia.
Qed.

Lemma append_assoc (a b c : string) : ((a ++ b) ++ c = a ++ b ++ c)%string.
Proof. induction a as [| x a IH]; cbn; [reflexivity | now rewrite IH]. Qed.

(** X15.  After the rule service has appended a new result to the history,
    the execution prompt announces and lists, between its introduction and
    the END OF PREVIOUS RESULTS line, exactly the two most recent of the
    results it listed before followed by the new one, numbered from 1: never
    more than three, and the new result last. *)
Theorem history_shows_latest
        (rulePrompt : string)
        (history : option (list Prompts.history_entry))
        (newEntry : Prompts.history_entry) :
  let shown := (Prompts.slice_last 2 (Prompts.recent_history history)
                ++ [Prompts.content newEntry])%list in
  (List.length shown <= 3)%nat
  /\ exists before after,
      Prompts.buildRuleExecutionPrompt rulePrompt
        (Some (Prompts.updated_history history newEntry))
      = before
        ++ "The following are the last "
        ++ Js.decimal (Z.of_nat (List.length shown))
        ++ " result(s) from previous executions of this task. "
        ++ Prompts.nl
        ++ "Your new response should NOT repeat or duplicate information already covered in these previous results:"
        ++ Prompts.nl ++ Prompts.nl
        ++ String.concat (Prompts.nl ++ Prompts.nl)
             (Prompts.numbered 0 shown)
        ++ Prompts.nl
        ++ "END OF PREVIOUS RESULTS" ++ after.
Proof.
  intros shown. split.
  - subst shown. rewrite length_app, slice_last_length. cbn [List.length].
    lia.
  - unfold Prompts.buildRuleExecutionPrompt.
    rewrite recent_history_updated. fold shown.
    assert (Hsome : (0 <? List.length shown)%nat = true).
    { apply Nat.ltb_lt. subst shown. rewrite length_app. cbn. lia. }
    unfold Prompts.history_section. rewrite Hsome.
    remember (String.concat (Prompts.nl ++ Prompts.nl)
                (Prompts.numbered 0 shown)) as listing eqn:Hlisting.
    remember (Js.decimal (Z.of_nat (List.length shown))) as count
      eqn:Hcount.
    clear Hlisting Hcount Hsome. clearbody shown.
    match goal with
    | |- exists before after,
           (?p1 ++ ?p2 ++ ?p3 ++ ?p4 ++ ?p5 ++ ?p6
            ++ (?h1 ++ ?h2 ++ ?h3 ++ ?h4 ++ ?h5 ++ ?h6 ++ ?h7 ++ ?h8 ++ ?h9
                ++ ?h10 ++ ?h11 ++ ?h12 ++ ?h13 ++ ?h14 ++ ?h15 ++ ?closing)
            ++ ?guidelines)%string = _ =>
        exists (p1 ++ p2 ++ p3 ++ p4 ++ p5 ++ p6
                ++ h1 ++ h2 ++ h3 ++ h4 ++ h5)%string,
               (closing ++ guidelines)%string
    end.
    rewrite !append_assoc. reflexivity.
Qed.

(** X16.  Every cadence the scheduler accepts is turned into a cron
    expression that [cronToFrequency] knows: the label shown for a schedule
    created by this service is always one of the four names, never the raw
    cron expression. *)
Theorem supported_cadence_is_labelled (normalized cron : string) :
  QStash.cron_of_cadence normalized = Some cron ->
  In (QStash.cronToFrequency cron) ["Every minute"; "Hourly"; "Daily"; "Weekly"]
  /\ QStash.cronToFrequency cron <> cron.
Proof.
  unfold QStash.cron_of_cadence.
  repeat match goal with
         | |- context [String.eqb normalized ?s] =>
             destruct (String.eqb normalized s)
         end;
    intros [= <-]; cbn; split; auto 6; discriminate.
Qed.

(* ================================================================== *)
(** ** The further properties on concrete conversations *)

Lemma open_session_closed_exactly_once_witness :
  filter is_close
    (calls_of
       (events (runComputerUseAgent (scripted no_failure) 5 "Click"
                  [Fulfil (turn_with "resp_1" click_action (JArr []));
                   Fulfil done_turn])))
  = [BrowserClose (JStr "browser#1")].
Proof.
  refine (proj1
            (open_session_closed_exactly_once (scripted no_failure) 5
               "Click"
               [Fulfil (turn_with "resp_1" click_action (JArr []));
                Fulfil done_turn]
               (JStr "browser#1") (JStr "page#1") eq_refl _)).
  vm_compute. discriminate.
Defined.

Lemma close_failure_replaces_outcome_witness :
  outcome_of (runComputerUseAgent (scripted is_close) 5 "Report"
                [Fulfil done_turn])
  = Thrown (JStr "host failure").
Proof.
  refine (close_failure_replaces_outcome (scripted is_close) 5 "Report"
            [Fulfil done_turn] (JStr "browser#1") (JStr "page#1")
            (JStr "host failure") eq_refl _).
  vm_compute. repeat (first [left; reflexivity | right]).
Defined.

Lemma transport_failure_closes_browser_witness :
  outcome_of (runComputerUseAgent (scripted no_failure) 5 "Report" [])
  = Thrown (JStr "connection refused").
Proof.
  exact (proj1
           (transport_failure_closes_browser (scripted no_failure) 5
              "Report" []
              (JStr "browser#1") [] (JStr "page#1") [] JUndefined []
              (JStr "connection refused") [] JUndefined []
              eq_refl eq_refl eq_refl eq_refl eq_refl)).
Defined.

Lemma dispatch_stops_at_rejection_witness :
  outcome_of (handleModelAction (scripted pointer_move_fails)
                (JStr "page#1") scroll_action [])
  = Thrown (JStr "host failure").
Proof.
  exact (proj2
           (dispatch_stops_at_rejection (scripted pointer_move_fails)
              (JStr "page#1") scroll_action [] []
              (MouseMove (JStr "page#1") (JNum 10) (JNum 20))
              (JStr "host failure") [] eq_refl)).
Defined.

Lemma failed_dispatch_aborts_pass_witness :
  outcome_of (loop_iteration (scripted pointer_move_fails) (JStr "page#1") 1
                (turn_with "resp_1" scroll_action (JArr []))
                [Fulfil done_turn])
  = Thrown (JStr "host failure").
Proof.
  exact (proj1
           (proj1
              (failed_dispatch_aborts_pass (scripted pointer_move_fails)
                 (JStr "page#1")
                 (turn_with "resp_1" scroll_action (JArr []))
                 _ (JStr "scroll") [Fulfil done_turn] (JStr "host failure")
                 eq_refl eq_refl eq_refl eq_refl)
              1%nat)).
Defined.

Lemma keys_pressed_in_order_witness :
  let d := handleModelAction (scripted second_press_fails) (JStr "page#1")
             keypress_action [] in
  interactions (events d)
  = [(KeyboardPress (JStr "page#1") (JStr "Control"), Fulfil JUndefined);
     (KeyboardPress (JStr "page#1") (JStr "a"),
      Reject (JStr "host failure"))]
  /\ exists done : list (jsval * jsval),
      (outcome_of d = Returned tt
       /\ map fst done = [JStr "Control"; JStr "a"]
       /\ interactions (events d) = map (pressed (JStr "page#1")) done)
      \/ (exists key rest e,
             [JStr "Control"; JStr "a"] = (map fst done ++ key :: rest)%list
             /\ interactions (events d)
                = (map (pressed (JStr "page#1")) done
                   ++ [(KeyboardPress (JStr "page#1") key, Reject e)])%list
             /\ outcome_of d = Thrown e).
Proof.
  cbv zeta. split; [reflexivity |].
  exact (proj1
           (keys_pressed_in_order (scripted second_press_fails)
              (JStr "page#1") keypress_action [] eq_refl)
           [JStr "Control"; JStr "a"] eq_refl).
Defined.

Lemma navigation_never_throws_witness :
  outcome_of (handleModelAction (scripted is_goto) (JStr "page#1")
                goto_action [])
  = Returned tt.
Proof.
  refine (proj1
            (navigation_never_throws (scripted is_goto) (JStr "page#1")
               goto_action "goto" [] _ eq_refl)).
  simpl. tauto.
Defined.

Lemma malformed_response_throws_witness :
  outcome_of
    (loop_iteration (scripted no_failure) (JStr "page#1") 1
       (JObj [("id", JStr "resp_1"); ("output", JStr "done")])
       [Fulfil done_turn])
  = Thrown type_error.
Proof.
  assert (Hbad : malformed
                   (JObj [("id", JStr "resp_1"); ("output", JStr "done")])).
  { apply output_not_array; [reflexivity | reflexivity |].
    intros items. discriminate. }
  rewrite (proj1
             (malformed_response_throws (scripted no_failure)
                (JStr "page#1")
                (JObj [("id", JStr "resp_1"); ("output", JStr "done")])
                [Fulfil done_turn] Hbad) 1%nat).
  reflexivity.
Defined.

Lemma later_items_ignored_witness :
  same_interaction
    (loop_iteration (scripted no_failure) (JStr "page#1") 1
       (JObj [("id", JStr "resp_1");
              ("output", JArr [working_item; click_call_item])])
       [Fulfil done_turn])
    (loop_iteration (scripted no_failure) (JStr "page#1") 1
       (JObj [("id", JStr "resp_1");
              ("output",
               JArr [working_item; click_call_item; JNull;
                     JObj [("type", JStr "text");
                           ("text", JStr "ignored")]])])
       [Fulfil done_turn]).
Proof.
  exact (later_items_ignored (scripted no_failure) (JStr "page#1") 1
           (JObj [("id", JStr "resp_1");
                  ("output", JArr [working_item; click_call_item])])
           (JObj [("id", JStr "resp_1");
                  ("output",
                   JArr [working_item; click_call_item; JNull;
                         JObj [("type", JStr "text");
                               ("text", JStr "ignored")]])])
           [working_item] click_call_item []
           [JNull; JObj [("type", JStr "text"); ("text", JStr "ignored")]]
           [Fulfil done_turn]
           eq_refl eq_refl eq_refl eq_refl eq_refl eq_refl).
Defined.

Lemma follow_up_links_previous_turn_witness :
  Js.prop
    (next_request (JStr "resp_1") (JStr "call_1") (JArr []) "iVBORw0KGgo=")
    "previous_response_id"
  = JStr "resp_1".
Proof.
  refine (proj1
            (follow_up_links_previous_turn (scripted no_failure)
               (JStr "page#1") 1
               (turn_with "resp_1" click_action (JArr []))
               _ (JStr "click") [Fulfil done_turn]
               (next_request (JStr "resp_1") (JStr "call_1") (JArr [])
                  "iVBORw0KGgo=")
               eq_refl eq_refl eq_refl _)).
  vm_compute. repeat (first [left; reflexivity | right]).
Defined.

Lemma requests_match_screenshots_witness :
  List.length
    (filter is_request
       (calls_of
          (events (runComputerUseAgent (scripted no_failure) 5 "Click"
                     [Fulfil (turn_with "resp_1" click_action (JArr []));
                      Fulfil done_turn]))))
  = (List.length
       (filter is_screenshot
          (calls_of
             (events (runComputerUseAgent (scripted no_failure) 5 "Click"
                        [Fulfil (turn_with "resp_1" click_action (JArr []));
                         Fulfil done_turn]))))
     + 1)%nat.
Proof.
  refine (proj2
            (proj2
               (requests_match_screenshots (scripted no_failure) 5 "Click"
                  [Fulfil (turn_with "resp_1" click_action (JArr []));
                   Fulfil done_turn]))
            ("Done" ++ Js.newline ++ "Task complete") _).
  vm_compute. reflexivity.
Defined.

Lemma only_recent_history_matters_witness :
  Prompts.buildRuleExecutionPrompt "Check the news"
    (Some [Prompts.Entry "old" "2025-01-01";
           Prompts.Entry "older" "2025-01-02";
           Prompts.Entry "a" "2025-01-03";
           Prompts.Entry "b" "2025-01-04";
           Prompts.Entry "c" "2025-01-05"])
  = Prompts.buildRuleExecutionPrompt "Check the news"
      (Some [Prompts.Entry "a" "t1";
             Prompts.Entry "b" "t2";
             Prompts.Entry "c" "t3"]).
Proof.
  exact (only_recent_history_matters "Check the news"
           [Prompts.Entry "old" "2025-01-01";
            Prompts.Entry "older" "2025-01-02";
            Prompts.Entry "a" "2025-01-03";
            Prompts.Entry "b" "2025-01-04";
            Prompts.Entry "c" "2025-01-05"]
           [Prompts.Entry "a" "t1";
            Prompts.Entry "b" "t2";
            Prompts.Entry "c" "t3"]
           eq_refl).
Defined.

Lemma supported_cadence_is_labelled_witness :
  QStash.cron_of_cadence "hourly" = Some "0 * * * *"
  /\ In (QStash.cronToFrequency "0 * * * *")
        ["Every minute"; "Hourly"; "Daily"; "Weekly"].
Proof.
  split; [reflexivity |].
  exact (proj1 (supported_cadence_is_labelled "hourly" "0 * * * *" eq_refl)).
Defined.
